(** * Automation: position-adjustment journals and the PDF merger

    A shallow embedding of [auto1.py] (class [JournalGenerator]) and of
    [pdf_merger.py], and the properties of the two scripts.

    - [Py]        Python values, exceptions, [pathlib] suffixes.
    - [Pandas]    the part of pandas the generator calls: frames whose rows
                  are label-indexed, column selection and assignment,
                  the outer merge, [fillna], boolean masks.
    - [Store]     the object store: frames are mutable objects, a variable
                  holds a reference.
    - [Auto1]     [load_position_data], [calculate_adjustments],
                  [generate_journal_entries].
    - [PdfMerger] [merge_pdfs].
    - [Typed]     position records and change records, and the frames that
                  hold them.
    - [Samples]   the data of the examples.

    Numbers.  pandas keeps [quantity] and [value] in int64 or float64
    columns.  The generator only subtracts them, takes absolute values and
    compares them with zero, so a number is an unbounded integer here
    (an amount counted in its smallest unit); overflow and rounding are
    not modelled.  The missing value [NaN] is kept apart, because the
    outer merge produces it and [fillna(0)] removes it.

    Files.  A path is the string the caller gives; the tables and
    documents on disk are maps from paths to contents already parsed. *)

From stdpp Require Import gmap strings list fin_maps.
From Stdlib Require Import ZArith Ascii DecimalString.

(* ===================================================================== *)
(** ** Python values *)
(* ===================================================================== *)

Module Py.

(** The content of one cell of a table: a string, a number, or the
    missing value. *)
Inductive cell : Type :=
| Str (s : string)
| Num (z : Z)
| NaN.

#[global] Instance cell_eq_dec : EqDecision cell.
Proof. solve_decision. Defined.

(** The exceptions that the two scripts and the library calls they make
    can raise.  [InvalidRef] is not a Python exception: it is what the
    store answers for a reference that was never allocated, which no
    Python program can hold. *)
Inductive exn : Type :=
| KeyError (key : string)
| TypeError
| ValueError (msg : string)
| MergeError
| FileNotFoundError (path : string)
| PdfReadError
| OSError
| InvalidRef.

Definition result (A : Type) : Type := (exn + A)%type.

Definition ok {A} (x : A) : result A := inr x.
Definition raise {A} (e : exn) : result A := inl e.

#[global] Instance result_ret : MRet result := λ A x, inr x.
#[global] Instance result_bind : MBind result := λ A B f m,
  match m with
  | inl e => inl e
  | inr x => f x
  end.
#[global] Instance result_fmap : FMap result := λ A B f m,
  match m with
  | inl e => inl e
  | inr x => inr (f x)
  end.

(** [str(x)], as the f-strings of the generator apply it. *)
Definition py_str (x : cell) : string :=
  match x with
  | Str s => s
  | Num z => NilZero.string_of_int (Z.to_int z)
  | NaN => "nan"
  end.

(** [abs(x)] *)
Definition py_abs (x : cell) : result cell :=
  match x with
  | Num z => ok (Num (Z.abs z))
  | NaN => ok NaN
  | Str _ => raise TypeError
  end.

(** [x > 0] and [x < 0]: false on the missing value, a [TypeError] on a
    string. *)
Definition py_gt0 (x : cell) : result bool :=
  match x with
  | Num z => ok (0 <? z)%Z
  | NaN => ok false
  | Str _ => raise TypeError
  end.

Definition py_lt0 (x : cell) : result bool :=
  match x with
  | Num z => ok (z <? 0)%Z
  | NaN => ok false
  | Str _ => raise TypeError
  end.

(** [x - y] *)
Definition py_sub (x y : cell) : result cell :=
  match x, y with
  | Num a, Num b => ok (Num (a - b))
  | Str _, _ | _, Str _ => raise TypeError
  | _, _ => ok NaN
  end.

(** [x != 0]: never raises; the missing value and every string differ
    from zero. *)
Definition py_ne0 (x : cell) : bool :=
  match x with
  | Num z => negb (z =? 0)%Z
  | _ => true
  end.

(** [str.lower()] on the ASCII letters. *)
Definition lower_ascii (a : ascii) : ascii :=
  let n := nat_of_ascii a in
  if (65 <=? n)%nat && (n <=? 90)%nat then ascii_of_nat (n + 32) else a.

Fixpoint lower (s : string) : string :=
  match s with
  | EmptyString => EmptyString
  | String a s' => String (lower_ascii a) (lower s')
  end.

(** The components of a POSIX path, as [pathlib.Path] keeps them: empty
    components and ["."] are dropped. *)
Fixpoint split_slash (cur : string) (s : string) : list string :=
  match s with
  | EmptyString => [cur]
  | String a s' =>
      if Ascii.eqb a "/"%char then cur :: split_slash EmptyString s'
      else split_slash (cur +:+ String a EmptyString) s'
  end.

Definition path_name (p : string) : string :=
  List.last (List.filter (λ c, negb (String.eqb c "" || String.eqb c "."))
                         (split_slash EmptyString p)) "".

(** [name.rfind('.')] *)
Fixpoint rfind_dot (i : nat) (s : string) (found : option nat) : option nat :=
  match s with
  | EmptyString => found
  | String a s' =>
      rfind_dot (S i) s' (if Ascii.eqb a "."%char then Some i else found)
  end.

(** [Path(p).suffix]: the last dot of the final component and what
    follows it, unless that dot is the first or the last character. *)
Definition path_suffix (p : string) : string :=
  let name := path_name p in
  match rfind_dot 0 name None with
  | Some i =>
      if (0 <? i)%nat && (i <? String.length name - 1)%nat
      then String.substring i (String.length name - i) name
      else ""
  | None => ""
  end.

End Py.

(* ===================================================================== *)
(** ** The pandas operations the generator calls *)
(* ===================================================================== *)

Module Pandas.
Import Py.

(** A frame: its column labels, in order, and its rows.  A row maps a
    label to a cell; a label of the frame that a row does not hold reads
    as [NaN], as in a frame built from a list of dicts.  Frames with a
    repeated column label are outside the model. *)
Record DataFrame : Type := mkFrame {
  columns : list string;
  rows : list (gmap string cell)
}.

Definition cell_at (r : gmap string cell) (c : string) : cell :=
  default NaN (r !! c).

(** [df[c]] *)
Definition df_getitem (df : DataFrame) (c : string) : result (list cell) :=
  if decide (c ∈ columns df) then ok ((λ r, cell_at r c) <$> rows df)
  else raise (KeyError c).

(** The frame after [df[c] = vals]: an existing column is overwritten, a
    new one is added last. *)
Definition df_setitem (df : DataFrame) (c : string) (vals : list cell)
  : result DataFrame :=
  if decide (length vals = length (rows df)) then
    ok {| columns := if decide (c ∈ columns df) then columns df
                     else columns df ++ [c];
          rows := zip_with (λ r v, <[c := v]> r) (rows df) vals |}
  else raise (ValueError "Length of values does not match length of index").

(** [xs - ys], element by element. *)
Fixpoint series_sub (xs ys : list cell) : result (list cell) :=
  match xs, ys with
  | x :: xs', y :: ys' =>
      d ← py_sub x y; ds ← series_sub xs' ys'; mret (d :: ds)
  | _, _ => mret []
  end.

(** [xs != 0] and [m1 | m2] *)
Definition series_ne0 (xs : list cell) : list bool := py_ne0 <$> xs.
Definition series_or (m1 m2 : list bool) : list bool := zip_with orb m1 m2.

(** [df[mask]]: the rows at which the mask is true. *)
Definition df_mask (df : DataFrame) (mask : list bool) : result DataFrame :=
  if decide (length mask = length (rows df)) then
    ok {| columns := columns df;
          rows := (filter (λ p, p.2 = true) (zip (rows df) mask)).*1 |}
  else raise (ValueError "Item wrong length").

(** [df.fillna(v)]: every missing cell of every column becomes [v]. *)
Definition fill (v x : cell) : cell :=
  match x with NaN => v | _ => x end.

Definition df_fillna (df : DataFrame) (v : cell) : DataFrame :=
  {| columns := columns df;
     rows := (λ r, list_to_map ((λ c, (c, fill v (cell_at r c))) <$> columns df))
               <$> rows df |}.

(** *** [pd.merge(left, right, on=..., how='outer', suffixes=...)] *)

Definition key_of (on : list string) (r : gmap string cell) : list cell :=
  cell_at r <$> on.

(** The pairs of the full outer join: every left row with each right row
    of the same key, or alone when there is none, then the right rows
    whose key no left row has.  pandas orders the rows of an outer merge
    by key; the order of this list is left rows first, and no statement
    below depends on it. *)
Definition outer_pairs (on : list string) (ls rs : list (gmap string cell))
  : list (option (gmap string cell) * option (gmap string cell)) :=
  (l ← ls;
   match filter (λ r, key_of on r = key_of on l) rs with
   | [] => [(Some l, None)]
   | ms => (λ r, (Some l, Some r)) <$> ms
   end)
  ++ ((λ r, (None, Some r)) <$>
        filter (λ r, key_of on r ∉ (key_of on <$> ls)) rs).

(** Labels of the merged frame: a key column keeps its label, a
    column present on both sides takes the suffix of its side, any other
    column keeps its label. *)
Definition left_label (on rcols : list string) (sl : string) (c : string) : string :=
  if decide (c ∈ on) then c
  else if decide (c ∈ rcols) then c +:+ sl else c.

Definition right_label (lcols : list string) (sr : string) (c : string) : string :=
  if decide (c ∈ lcols) then c +:+ sr else c.

Definition side_cell (o : option (gmap string cell)) (c : string) : cell :=
  match o with
  | Some r => cell_at r c
  | None => NaN
  end.

Definition merged_row (on lcols rcols : list string) (sl sr : string)
    (l r : option (gmap string cell)) : gmap string cell :=
  list_to_map
    (((λ c, (left_label on rcols sl c,
             if decide (c ∈ on)
             then match l with Some _ => side_cell l c | None => side_cell r c end
             else side_cell l c)) <$> lcols)
     ++ ((λ c, (right_label lcols sr c, side_cell r c)) <$>
           filter (λ c, c ∉ on) rcols)).

Definition merge (left right : DataFrame) (on : list string)
    (suffixes : string * string) : result DataFrame :=
  match filter (λ k, k ∉ columns left ∨ k ∉ columns right) on with
  | k :: _ => raise (KeyError k)
  | [] =>
      let lcols := columns left in
      let rcols := columns right in
      let cols := (left_label on rcols suffixes.1 <$> lcols)
                  ++ (right_label lcols suffixes.2 <$> filter (λ c, c ∉ on) rcols) in
      if decide (NoDup cols) then
        ok {| columns := cols;
              rows := (λ p, merged_row on lcols rcols suffixes.1 suffixes.2 p.1 p.2)
                        <$> outer_pairs on (rows left) (rows right) |}
      else raise MergeError
  end.

(** *** The rows that [df.iterrows()] yields: a row read through the
    labels of its frame. *)

(** [row.get(k, dflt)] *)
Definition row_get (cols : list string) (row : gmap string cell)
    (k : string) (dflt : cell) : cell :=
  if decide (k ∈ cols) then cell_at row k else dflt.

(** [row[k]] *)
Definition row_getitem (cols : list string) (row : gmap string cell)
    (k : string) : result cell :=
  if decide (k ∈ cols) then ok (cell_at row k) else raise (KeyError k).

End Pandas.

(* ===================================================================== *)
(** ** The object store *)
(* ===================================================================== *)

Module Store.
Import Py Pandas.

(** A frame is a mutable object; a Python variable holds a reference to
    it.  A computation reads and updates the store and may raise. *)
Definition loc : Type := positive.

Definition M (A : Type) : Type :=
  gmap loc DataFrame → result (A * gmap loc DataFrame).

#[global] Instance M_ret : MRet M := λ A x h, inr (x, h).
#[global] Instance M_bind : MBind M := λ A B f m h,
  match m h with
  | inl e => inl e
  | inr (x, h') => f x h'
  end.

Definition lift {A} (r : result A) : M A := λ h,
  match r with
  | inl e => inl e
  | inr x => inr (x, h)
  end.

(** A new object. *)
Definition new (df : DataFrame) : M loc := λ h,
  let l := fresh (dom h) in inr (l, <[l := df]> h).

Definition get (l : loc) : M DataFrame := λ h,
  match h !! l with
  | Some df => inr (df, h)
  | None => inl InvalidRef
  end.

(** In-place update of an object. *)
Definition put (l : loc) (df : DataFrame) : M unit := λ h,
  match h !! l with
  | Some _ => inr (tt, <[l := df]> h)
  | None => inl InvalidRef
  end.

(** The pandas calls on objects.  All but [setitem] return a new
    object; [setitem] changes the frame it is applied to. *)
Definition pd_merge (left right : loc) (on : list string)
    (suffixes : string * string) : M loc :=
  dl ← get left; dr ← get right;
  df ← lift (merge dl dr on suffixes);
  new df.

Definition fillna (l : loc) (v : cell) : M loc :=
  df ← get l; new (df_fillna df v).

Definition getitem (l : loc) (c : string) : M (list cell) :=
  df ← get l; lift (df_getitem df c).

Definition setitem (l : loc) (c : string) (vals : list cell) : M unit :=
  df ← get l; df' ← lift (df_setitem df c vals); put l df'.

Definition getitem_mask (l : loc) (mask : list bool) : M loc :=
  df ← get l; df' ← lift (df_mask df mask); new df'.

Definition copy (l : loc) : M loc :=
  df ← get l; new df.

End Store.

(* ===================================================================== *)
(** ** auto1.py: class JournalGenerator *)
(* ===================================================================== *)

Module Auto1.
Import Py Pandas Store.

(** The tables on disk: what [pd.read_csv] or [pd.read_excel] parses
    from each path.  Parsing itself is pandas's. *)
Definition read_table (fs : gmap string DataFrame) (file_path : string) : M loc :=
  match fs !! file_path with
  | Some df => new df
  | None => lift (raise (FileNotFoundError file_path))
  end.

(** [load_position_data(self, file_path)]; the progress message it
    prints is left out, here and below. *)
Definition load_position_data (fs : gmap string DataFrame) (file_path : string)
  : M loc :=
  let suffix := lower (path_suffix file_path) in
  if decide (suffix = ".csv") then read_table fs file_path
  else if decide (suffix ∈ [".xlsx"; ".xls"]) then read_table fs file_path
  else lift (raise (ValueError ("Unsupported file format: " +:+ path_suffix file_path))).

(** [calculate_adjustments(self, current_positions, previous_positions=None)] *)
Definition calculate_adjustments (current_positions : loc)
    (previous_positions : option loc) : M loc :=
  match previous_positions with
  | Some previous =>
      merged0 ← pd_merge current_positions previous
                  ["security_id"; "account"] ("_current", "_previous");
      merged ← fillna merged0 (Num 0);
      qc ← getitem merged "quantity_current";
      qp ← getitem merged "quantity_previous";
      dq ← lift (series_sub qc qp);
      setitem merged "quantity_change" dq;;
      vc ← getitem merged "value_current";
      vp ← getitem merged "value_previous";
      dv ← lift (series_sub vc vp);
      setitem merged "value_change" dv;;
      q ← getitem merged "quantity_change";
      v ← getitem merged "value_change";
      kept ← getitem_mask merged (series_or (series_ne0 q) (series_ne0 v));
      copy kept
  | None =>
      adjustments ← copy current_positions;
      q ← getitem adjustments "quantity";
      setitem adjustments "quantity_change" q;;
      v ← getitem adjustments "value";
      setitem adjustments "value_change" v;;
      mret adjustments
  end.

(** The content of the frame that [calculate_adjustments] returns, as a
    function of the contents of the frames it is given
    (see [calculate_adjustments_run]). *)
Definition adjustments_value (dc : DataFrame) (odp : option DataFrame)
  : result DataFrame :=
  match odp with
  | Some dp =>
      m0 ← merge dc dp ["security_id"; "account"] ("_current", "_previous");
      let m := df_fillna m0 (Num 0) in
      qc ← df_getitem m "quantity_current";
      qp ← df_getitem m "quantity_previous";
      dq ← series_sub qc qp;
      m1 ← df_setitem m "quantity_change" dq;
      vc ← df_getitem m1 "value_current";
      vp ← df_getitem m1 "value_previous";
      dv ← series_sub vc vp;
      m2 ← df_setitem m1 "value_change" dv;
      q ← df_getitem m2 "quantity_change";
      v ← df_getitem m2 "value_change";
      df_mask m2 (series_or (series_ne0 q) (series_ne0 v))
  | None =>
      q ← df_getitem dc "quantity";
      a1 ← df_setitem dc "quantity_change" q;
      v ← df_getitem a1 "value";
      df_setitem a1 "value_change" v
  end.

(** The frames that the arguments of a call refer to. *)
Definition previous_at (h : gmap loc DataFrame) (previous : option loc)
    (odp : option DataFrame) : Prop :=
  match previous, odp with
  | Some p, Some dp => h !! p = Some dp
  | None, None => True
  | _, _ => False
  end.

(** What a caller can see of a call that returns a frame: the exception,
    or the content of the frame returned. *)
Definition frame_returned (r : result (loc * gmap loc DataFrame))
  : result (option DataFrame) :=
  match r with
  | inl e => inl e
  | inr (l, h) => inr (h !! l)
  end.

(** One dict of the list [entries]. *)
Record JournalEntry : Type := mkEntry {
  date : string;
  security_id : cell;
  account : cell;
  debit_account : string;
  credit_account : string;
  quantity : cell;
  amount : cell;
  description : string
}.

(** The body of the loop over [adjustments.iterrows()]: [entries] before
    the row, [entries] after it. *)
Definition journal_row (date : string) (cols : list string)
    (entries : list JournalEntry) (row : gmap string cell)
  : result (list JournalEntry) :=
  let security_id :=
    row_get cols row "security_id"
      (row_get cols row "security_id_current" (Str "UNKNOWN")) in
  let account :=
    row_get cols row "account"
      (row_get cols row "account_current" (Str "UNKNOWN")) in
  quantity_change ← row_getitem cols row "quantity_change";
  value_change ← row_getitem cols row "value_change";
  gt ← py_gt0 quantity_change;
  if gt : bool then
    q ← py_abs quantity_change;
    a ← py_abs value_change;
    mret (entries ++ [ {| date := date;
                          security_id := security_id;
                          account := account;
                          debit_account := "Securities Borrowed";
                          credit_account := "Payable for Securities";
                          quantity := q;
                          amount := a;
                          description := "Borrow securities " +:+ py_str security_id |} ])
  else
    lt ← py_lt0 quantity_change;
    if lt : bool then
      q ← py_abs quantity_change;
      a ← py_abs value_change;
      mret (entries ++ [ {| date := date;
                            security_id := security_id;
                            account := account;
                            debit_account := "Payable for Securities";
                            credit_account := "Securities Borrowed";
                            quantity := q;
                            amount := a;
                            description := "Return securities " +:+ py_str security_id |} ])
    else mret entries.

Fixpoint for_rows {S A} (body : S → A → result S) (s : S) (l : list A) : result S :=
  match l with
  | [] => mret s
  | x :: l' => s' ← body s x; for_rows body s' l'
  end.

(** The loop, run on a frame. *)
Definition journal_entries (date : string) (df : DataFrame)
  : result (list JournalEntry) :=
  for_rows (journal_row date (columns df)) [] (rows df).

(** [generate_journal_entries(self, adjustments, date=None)].  [today]
    is what [datetime.now().strftime('%Y-%m-%d')] gives at the call.  The
    result stands for the frame [pd.DataFrame(entries)]. *)
Definition generate_journal_entries (today : string) (adjustments : loc)
    (date : option string) : M (list JournalEntry) :=
  let date := default today date in
  df ← get adjustments;
  lift (journal_entries date df).


End Auto1.

(* ===================================================================== *)
(** ** pdf_merger.py *)
(* ===================================================================== *)

Module PdfMerger.
Import Py.

(** What a path of the disk holds: a PDF document with its pages, or
    anything else (a directory, a file that is not a PDF document). *)
Inductive file : Type :=
| Pdf (pages : list nat)
| Other.

(** The disk: the paths that exist, and the paths that cannot be opened
    for writing. *)
Record disk : Type := mkDisk {
  files : gmap string file;
  unwritable : gset string
}.

(** [Path(p).exists()] *)
Definition path_exists (d : disk) (p : string) : bool :=
  bool_decide (is_Some (files d !! p)).

(** [merger.append(p)]: the pages of the document are added to those the
    merger holds. *)
Definition append (d : disk) (merger : list nat) (p : string)
  : result (list nat) :=
  match files d !! p with
  | Some (Pdf pages) => ok (merger ++ pages)
  | Some Other => raise PdfReadError
  | None => raise (FileNotFoundError p)
  end.

(** [merger.write(output_file)] *)
Definition write (d : disk) (merger : list nat) (output_file : string)
  : result disk :=
  if decide (output_file ∈ unwritable d) then raise OSError
  else ok {| files := <[output_file := Pdf merger]> (files d);
             unwritable := unwritable d |}.

(** The loop over [pdf_files].  [None] is the [return False] of the
    existence check, [Some merger] the merger when the loop ends. *)
Fixpoint add_files (d : disk) (merger : list nat) (pdf_files : list string)
  : result (option (list nat)) :=
  match pdf_files with
  | [] => ok (Some merger)
  | pdf_file :: rest =>
      if negb (path_exists d pdf_file) then ok None
      else if negb (String.eqb (lower (path_suffix pdf_file)) ".pdf")
      then add_files d merger rest
      else merger' ← append d merger pdf_file; add_files d merger' rest
  end.

(** [merge_pdfs(pdf_files, output_file)]: the value returned and the
    disk afterwards.  Any exception raised inside [try] ends in the
    handler, which returns [False]. *)
Definition merge_pdfs (d : disk) (pdf_files : list string)
    (output_file : string) : bool * disk :=
  let body : result (bool * disk) :=
    r ← add_files d [] pdf_files;
    match r with
    | None => ok (false, d)
    | Some merger => d' ← write d merger output_file; ok (true, d')
    end in
  match body with
  | inr res => res
  | inl _ => (false, d)
  end.

End PdfMerger.

(* ===================================================================== *)
(** ** The records of the data model, read in frames *)
(* ===================================================================== *)

Module Typed.
Import Py Pandas Store Auto1.

(** A position: one row of a snapshot. *)
Record PositionRecord : Type := mkPosition {
  pos_security_id : string;
  pos_account : string;
  pos_quantity : Z;
  pos_value : Z
}.

Definition pos_key (p : PositionRecord) : string * string :=
  (pos_security_id p, pos_account p).

Definition position_row (p : PositionRecord) : gmap string cell :=
  {[ "security_id" := Str (pos_security_id p);
     "account" := Str (pos_account p);
     "quantity" := Num (pos_quantity p);
     "value" := Num (pos_value p) ]}.

(** The frame the loader hands over for a snapshot. *)
Definition snapshot_frame (S : list PositionRecord) : DataFrame :=
  {| columns := ["security_id"; "account"; "quantity"; "value"];
     rows := position_row <$> S |}.

(** The record of a key in a snapshot, and its quantity and value, zero
    when the snapshot has no record of the key. *)
Definition find_key (k : string * string) (S : list PositionRecord)
  : option PositionRecord :=
  List.find (λ p, bool_decide (pos_key p = k)) S.



(** The full outer join of two snapshots on the key: every current
    record with the previous record of its key, if any, then the
    previous records whose key no current record has. *)
Definition outer_join (C P : list PositionRecord)
  : list (option PositionRecord * option PositionRecord) :=
  ((λ c, (Some c, find_key (pos_key c) P)) <$> C)
  ++ ((λ p, (None, Some p)) <$> filter (λ p, pos_key p ∉ (pos_key <$> C)) P).

Definition pair_rows (pr : option PositionRecord * option PositionRecord)
  : option (gmap string cell) * option (gmap string cell) :=
  (position_row <$> pr.1, position_row <$> pr.2).

Definition pair_key (pr : option PositionRecord * option PositionRecord)
  : string * string :=
  match pr with
  | (Some c, _) => pos_key c
  | (None, Some p) => pos_key p
  | (None, None) => ("", "")
  end.

Definition quantity_delta (pr : option PositionRecord * option PositionRecord) : Z :=
  (from_option pos_quantity 0 pr.1 - from_option pos_quantity 0 pr.2)%Z.

Definition value_delta (pr : option PositionRecord * option PositionRecord) : Z :=
  (from_option pos_value 0 pr.1 - from_option pos_value 0 pr.2)%Z.

(** The row of the merged frame for a pair, after [fillna(0)], and the
    row with the two deltas. *)
Definition joined_row (pr : option PositionRecord * option PositionRecord)
  : gmap string cell :=
  {[ "security_id" := Str (pair_key pr).1;
     "account" := Str (pair_key pr).2;
     "quantity_current" := Num (from_option pos_quantity 0%Z pr.1);
     "value_current" := Num (from_option pos_value 0%Z pr.1);
     "quantity_previous" := Num (from_option pos_quantity 0%Z pr.2);
     "value_previous" := Num (from_option pos_value 0%Z pr.2) ]}.

Definition change_row (pr : option PositionRecord * option PositionRecord)
  : gmap string cell :=
  <["value_change" := Num (value_delta pr)]>
    (<["quantity_change" := Num (quantity_delta pr)]> (joined_row pr)).



(** A change: what a row of the adjustments frame says. *)
Record ChangeRecord : Type := mkChange {
  chg_security_id : string;
  chg_account : string;
  quantity_change : Z;
  value_change : Z
}.

Definition is_change (row : gmap string cell) (c : ChangeRecord) : Prop :=
  row !! "security_id" = Some (Str (chg_security_id c)) ∧
  row !! "account" = Some (Str (chg_account c)) ∧
  row !! "quantity_change" = Some (Num (quantity_change c)) ∧
  row !! "value_change" = Some (Num (value_change c)).

Definition change_labels (cols : list string) : Prop :=
  "security_id" ∈ cols ∧ "account" ∈ cols ∧
  "quantity_change" ∈ cols ∧ "value_change" ∈ cols.

Definition change_frame (df : DataFrame) (cs : list ChangeRecord) : Prop :=
  change_labels (columns df) ∧ Forall2 is_change (rows df) cs.

(** The entry for a borrow and the entry for a return. *)
Definition borrow_entry (date : string) (c : ChangeRecord) : JournalEntry :=
  {| date := date;
     security_id := Str (chg_security_id c);
     account := Str (chg_account c);
     debit_account := "Securities Borrowed";
     credit_account := "Payable for Securities";
     quantity := Num (Z.abs (quantity_change c));
     amount := Num (Z.abs (value_change c));
     description := "Borrow securities " +:+ chg_security_id c |}.

Definition return_entry (date : string) (c : ChangeRecord) : JournalEntry :=
  {| date := date;
     security_id := Str (chg_security_id c);
     account := Str (chg_account c);
     debit_account := "Payable for Securities";
     credit_account := "Securities Borrowed";
     quantity := Num (Z.abs (quantity_change c));
     amount := Num (Z.abs (value_change c));
     description := "Return securities " +:+ chg_security_id c |}.

Definition entries_of (date : string) (c : ChangeRecord) : list JournalEntry :=
  if (0 <? quantity_change c)%Z then [borrow_entry date c]
  else if (quantity_change c <? 0)%Z then [return_entry date c]
  else [].

End Typed.

(* ===================================================================== *)
(** ** Sample data *)
(* ===================================================================== *)

Module Samples.
Import Py Pandas Store Auto1 Typed PdfMerger.

(** Three changes: a borrow, a return, and a revaluation that leaves
    the quantity as it is. *)
Definition borrow_row : gmap string cell :=
  {[ "security_id" := Str "SEC1"; "account" := Str "ACC1";
     "quantity_change" := Num 50; "value_change" := Num 600 ]}.

Definition return_row : gmap string cell :=
  {[ "security_id" := Str "SEC2"; "account" := Str "ACC1";
     "quantity_change" := Num (-50); "value_change" := Num (-600) ]}.

Definition revaluation_row : gmap string cell :=
  {[ "security_id" := Str "SEC3"; "account" := Str "ACC2";
     "quantity_change" := Num 0; "value_change" := Num 500 ]}.

Definition change_cols : list string :=
  ["security_id"; "account"; "quantity_change"; "value_change"].

Definition sample_adjustments : DataFrame :=
  mkFrame change_cols [borrow_row; return_row; revaluation_row].

Definition sample_changes : list ChangeRecord :=
  [ mkChange "SEC1" "ACC1" 50 600;
    mkChange "SEC2" "ACC1" (-50) (-600);
    mkChange "SEC3" "ACC2" 0 500 ].

Definition sample_borrow_entry : JournalEntry :=
  mkEntry "2026-01-31" (Str "SEC1") (Str "ACC1")
    "Securities Borrowed" "Payable for Securities"
    (Num 50) (Num 600) "Borrow securities SEC1".

Definition sample_return_entry : JournalEntry :=
  mkEntry "2026-01-31" (Str "SEC2") (Str "ACC1")
    "Payable for Securities" "Securities Borrowed"
    (Num 50) (Num 600) "Return securities SEC2".

(** Two snapshots: SEC1 grows, SEC2 stays, SEC3 is returned in full,
    SEC4 is new; SEC5 is a position of quantity and value zero. *)
Definition sample_current : list PositionRecord :=
  [ mkPosition "SEC1" "ACC1" 100 1000;
    mkPosition "SEC2" "ACC1" 5 7;
    mkPosition "SEC4" "ACC2" 30 90;
    mkPosition "SEC5" "ACC2" 0 0 ].

Definition sample_previous : list PositionRecord :=
  [ mkPosition "SEC1" "ACC1" 60 600;
    mkPosition "SEC2" "ACC1" 5 7;
    mkPosition "SEC3" "ACC1" 5 7 ].

Definition sample_store : gmap loc DataFrame :=
  {[ 1%positive := snapshot_frame sample_current;
     2%positive := snapshot_frame sample_previous;
     3%positive := sample_adjustments ]}.

(** The same frames at other places of another store. *)
Definition other_store : gmap loc DataFrame :=
  {[ 5%positive := sample_adjustments;
     7%positive := snapshot_frame sample_previous;
     8%positive := snapshot_frame sample_current;
     9%positive := mkFrame [] [] ]}.

(** A table without the column [security_id], in a file the loader
    accepts. *)
Definition headless_frame : DataFrame :=
  mkFrame ["account"; "quantity"; "value"]
    [ {[ "account" := Str "ACC1"; "quantity" := Num 100; "value" := Num 1000 ]} ].

(** A table without the column [quantity]. *)
Definition no_quantity_frame : DataFrame :=
  mkFrame ["security_id"; "account"; "value"]
    [ {[ "security_id" := Str "SEC1"; "account" := Str "ACC1"; "value" := Num 1000 ]} ].

Definition sample_files : gmap string DataFrame :=
  {[ "positions.csv" := headless_frame;
     "previous.XLSX" := snapshot_frame sample_previous;
     "no_quantity.xls" := no_quantity_frame ]}.

(** A disk with one document. *)
Definition sample_disk : disk :=
  mkDisk {[ "a.pdf" := Pdf [1; 2]%nat ]} ∅.

End Samples.

(* ===================================================================== *)
(** ** pdf_merger.py: the command line *)
(* ===================================================================== *)

Module PdfMain.
Import Py PdfMerger.

(** [s.endswith(suffix)] *)
Definition ends_with (s suffix : string) : bool :=
  (String.length suffix <=? String.length s)%nat &&
  String.eqb (String.substring (String.length s - String.length suffix)
                               (String.length suffix) s) suffix.

(** [main()] of the merger: [argv] is [sys.argv], the result is the exit
    status and the disk afterwards.  The usage text it prints is left
    out. *)
Definition main (argv : list string) (d : disk) : nat * disk :=
  match argv with
  | _ :: output_file :: input1 :: inputs =>
      let input_files := input1 :: inputs in
      let output_file :=
        if negb (ends_with (lower output_file) ".pdf")
        then output_file +:+ ".pdf" else output_file in
      let '(success, d') := merge_pdfs d input_files output_file in
      (if success then 0 else 1, d')
  | _ => (1, d)
  end.

End PdfMain.

(* ===================================================================== *)
(** ** Readings used by the further properties *)
(* ===================================================================== *)

Module Readings.
Import Py Pandas Store Auto1 Typed PdfMerger.



(** A cell that holds a number. *)
Definition is_num (x : cell) : Prop := ∃ z, x = Num z.



Definition change_of_pair (pr : option PositionRecord * option PositionRecord)
  : ChangeRecord :=
  mkChange (pair_key pr).1 (pair_key pr).2 (quantity_delta pr) (value_delta pr).

Definition change_of_position (p : PositionRecord) : ChangeRecord :=
  mkChange (pos_security_id p) (pos_account p) (pos_quantity p) (pos_value p).


(** The entry of a change whose quantity change is not zero. *)
Definition entry_of (date : string) (c : ChangeRecord) : JournalEntry :=
  if (0 <? quantity_change c)%Z then borrow_entry date c else return_entry date c.

(** Reconcile, then build the entries. *)
Definition reconcile_and_build (today : string) (current : loc)
    (previous : option loc) (date : option string) : M (list JournalEntry) :=
  adjustments ← calculate_adjustments current previous;
  generate_journal_entries today adjustments date.

(** Whether a character occurs in a string. *)
Fixpoint has_char (c : ascii) (s : string) : bool :=
  match s with
  | EmptyString => false
  | String a s' => Ascii.eqb a c || has_char c s'
  end.

(** A file name [stem.ext] in a directory: [dir] is empty or ends with a
    slash, the stem is not empty and has no slash, the extension is not
    empty and has neither a slash nor a dot. *)
Definition file_name_parts (dir stem ext : string) : Prop :=
  (dir = "" ∨ ∃ dir0, dir = dir0 +:+ "/") ∧
  stem ≠ "" ∧ has_char "/" stem = false ∧
  ext ≠ "" ∧ has_char "/" ext = false ∧ has_char "." ext = false.

(** The paths of [pdf_files] that the merger takes for PDF documents, the
    pages of the document at a path, and the pages of all of them in the
    order of the list. *)
Definition pdf_inputs (pdf_files : list string) : list string :=
  filter (λ p, lower (path_suffix p) = ".pdf") pdf_files.

Definition pages_of (d : disk) (p : string) : list nat :=
  match files d !! p with
  | Some (Pdf pages) => pages
  | _ => []
  end.

Definition merged_pages (d : disk) (pdf_files : list string) : list nat :=
  pdf_inputs pdf_files ≫= pages_of d.

End Readings.

(* ===================================================================== *)
(** ** Sample data of the further properties *)
(* ===================================================================== *)

Module MoreSamples.
Import Py Pandas Store Auto1 Typed PdfMerger Samples PdfMain Readings.

(** Adjustments as a merge leaves them when the key columns were
    suffixed by hand: the security id is under [security_id_current]. *)
Definition suffixed_adjustments : DataFrame :=
  mkFrame ["security_id_current"; "account"; "quantity_change"; "value_change"]
    [ {[ "security_id_current" := Str "SEC7"; "account" := Str "ACC1";
         "quantity_change" := Num (-3); "value_change" := NaN ]} ].

(** Adjustments without the column [value_change]. *)
Definition no_value_change_frame : DataFrame :=
  mkFrame ["security_id"; "account"; "quantity_change"]
    [ {[ "security_id" := Str "SEC1"; "account" := Str "ACC1";
         "quantity_change" := Num 0 ]} ].

(** The sample adjustments with two more columns. *)
Definition wide_adjustments : DataFrame :=
  mkFrame ["security_id"; "security_name"; "account"; "quantity_change";
           "value_change"; "quantity_current"]
    [ <["security_name" := Str "SPDB"]> (<["quantity_current" := Num 50]> borrow_row);
      <["security_name" := Str "CMBC"]> (<["quantity_current" := Num 0]> return_row);
      <["security_name" := Str "CMB"]> (<["quantity_current" := Num 8]> revaluation_row) ].

(** Adjustments whose second row has a string for its value change. *)
Definition mistyped_adjustments : DataFrame :=
  mkFrame change_cols
    [ borrow_row;
      {[ "security_id" := Str "SEC2"; "account" := Str "ACC1";
         "quantity_change" := Num 5; "value_change" := Str "n/a" ]} ].

Definition journal_store : gmap loc DataFrame :=
  {[ 1%positive := suffixed_adjustments;
     2%positive := no_value_change_frame;
     3%positive := sample_adjustments;
     4%positive := wide_adjustments;
     5%positive := headless_frame;
     6%positive := mistyped_adjustments ]}.




(** A disk with two documents and a text file. *)
Definition office_disk : disk :=
  mkDisk {[ "a.pdf" := Pdf [1; 2]%nat;
            "b.PDF" := Pdf [3]%nat;
            "notes.txt" := Other ]} ∅.

Definition office_disk_merged (output_file : string) : disk :=
  mkDisk (<[output_file := Pdf [1; 2; 3]%nat]> (files office_disk)) ∅.

End MoreSamples.

(* ===================================================================== *)
(** ** Abbreviations *)
(* ===================================================================== *)

Import Py Pandas Store Auto1 Typed PdfMerger Samples PdfMain Readings MoreSamples.

Local Abbreviation on2 := ["security_id"; "account"].
Local Abbreviation snap_cols := ["security_id"; "account"; "quantity"; "value"].
Local Abbreviation merged_cols :=
  ["security_id"; "account"; "quantity_current"; "value_current";
   "quantity_previous"; "value_previous"].

(* ===================================================================== *)
(** ** Running computations in the store *)
(* ===================================================================== *)

Section store_steps.
Context {A B : Type}.
Implicit Types (h : gmap loc DataFrame) (k : A → M B).

Lemma bind_run (m : M A) k h :
  (m ≫= k) h = match m h with inl e => inl e | inr (x, h') => k x h' end.
Proof. reflexivity. Qed.

Lemma bind_lift (r : result A) k h :
  (lift r ≫= k) h = match r with inl e => inl e | inr x => k x h end.
Proof. by destruct r. Qed.

End store_steps.

Lemma get_run (h : gmap loc DataFrame) l df :
  h !! l = Some df → get l h = inr (df, h).
Proof. intros H. unfold get. by rewrite H. Qed.

Lemma fresh_loc_None (h : gmap loc DataFrame) : h !! fresh (dom h) = None.
Proof. apply not_elem_of_dom, is_fresh. Qed.

Section object_steps.
Context {B : Type}.
Implicit Types (h : gmap loc DataFrame).

Local Ltac unfold_ops :=
  unfold pd_merge, fillna, getitem, setitem, getitem_mask, copy,
         get, put, new, lift, mbind, M_bind.

Lemma copy_run h l df (k : loc → M B) :
  h !! l = Some df →
  (copy l ≫= k) h = k (fresh (dom h)) (<[fresh (dom h) := df]> h).
Proof. intros H. unfold_ops. by rewrite H. Qed.

Lemma getitem_run h l df c (k : list cell → M B) :
  h !! l = Some df →
  (getitem l c ≫= k) h
  = match df_getitem df c with inl e => inl e | inr v => k v h end.
Proof. intros H. unfold_ops. rewrite H. by destruct (df_getitem df c). Qed.

Lemma setitem_run h l df c v (k : unit → M B) :
  h !! l = Some df →
  (setitem l c v ≫= k) h
  = match df_setitem df c v with
    | inl e => inl e
    | inr df' => k tt (<[l := df']> h)
    end.
Proof.
  intros H. unfold_ops. rewrite H.
  destruct (df_setitem df c v); [done|]. by rewrite H.
Qed.

Lemma pd_merge_run h l r dl dr on sfx (k : loc → M B) :
  h !! l = Some dl → h !! r = Some dr →
  (pd_merge l r on sfx ≫= k) h
  = match merge dl dr on sfx with
    | inl e => inl e
    | inr df => k (fresh (dom h)) (<[fresh (dom h) := df]> h)
    end.
Proof.
  intros Hl Hr. unfold_ops. rewrite Hl, Hr.
  by destruct (merge dl dr on sfx).
Qed.

Lemma fillna_run h l df v (k : loc → M B) :
  h !! l = Some df →
  (fillna l v ≫= k) h
  = k (fresh (dom h)) (<[fresh (dom h) := df_fillna df v]> h).
Proof. intros H. unfold_ops. by rewrite H. Qed.

Lemma getitem_mask_run h l df mask (k : loc → M B) :
  h !! l = Some df →
  (getitem_mask l mask ≫= k) h
  = match df_mask df mask with
    | inl e => inl e
    | inr df' => k (fresh (dom h)) (<[fresh (dom h) := df']> h)
    end.
Proof. intros H. unfold_ops. rewrite H. by destruct (df_mask df mask). Qed.

End object_steps.

(* ===================================================================== *)
(** ** The entry builder *)
(* ===================================================================== *)

Lemma for_rows_app {S A} (body : S → A → result S) s (l1 l2 : list A) :
  for_rows body s (l1 ++ l2) = for_rows body s l1 ≫= λ s', for_rows body s' l2.
Proof.
  revert s. induction l1 as [|x l1 IH]; intros s; simpl; [done|].
  destruct (body s x) as [e|s']; simpl; [done|]. apply IH.
Qed.

(** The loop body only appends: what it does to [entries] is what it does
    to the empty list, put after [entries]. *)
Lemma journal_row_acc d cols acc row :
  journal_row d cols acc row = (acc ++.) <$> journal_row d cols [] row.
Proof.
  unfold journal_row.
  destruct (row_getitem cols row "quantity_change") as [e|q]; simpl; [done|].
  destruct (row_getitem cols row "value_change") as [e|v]; simpl; [done|].
  destruct (py_gt0 q) as [e|[]]; simpl; [done| |].
  - destruct (py_abs q) as [e|q']; simpl; [done|].
    destruct (py_abs v) as [e|v']; simpl; done.
  - destruct (py_lt0 q) as [e|[]]; simpl; [done| |].
    + destruct (py_abs q) as [e|q']; simpl; [done|].
      destruct (py_abs v) as [e|v']; simpl; done.
    + by rewrite app_nil_r.
Qed.

Lemma for_rows_journal_acc d cols acc l :
  for_rows (journal_row d cols) acc l
  = (acc ++.) <$> for_rows (journal_row d cols) [] l.
Proof.
  revert acc. induction l as [|row l IH]; intros acc; simpl.
  - by rewrite app_nil_r.
  - rewrite (journal_row_acc d cols acc row).
    destruct (journal_row d cols [] row) as [e|es]; simpl; [done|].
    rewrite (IH (acc ++ es)), (IH es).
    destruct (for_rows (journal_row d cols) [] l) as [e|es']; simpl; [done|].
    by rewrite app_assoc.
Qed.

Lemma journal_entries_cons d cols row l :
  journal_entries d (mkFrame cols (row :: l))
  = es1 ← journal_row d cols [] row;
    es2 ← journal_entries d (mkFrame cols l);
    mret (es1 ++ es2).
Proof.
  unfold journal_entries; simpl.
  destruct (journal_row d cols [] row) as [e|es]; simpl; [done|].
  rewrite for_rows_journal_acc.
  by destruct (for_rows (journal_row d cols) [] l).
Qed.

Lemma journal_entries_app d cols l1 l2 :
  journal_entries d (mkFrame cols (l1 ++ l2))
  = es1 ← journal_entries d (mkFrame cols l1);
    es2 ← journal_entries d (mkFrame cols l2);
    mret (es1 ++ es2).
Proof.
  unfold journal_entries; simpl. rewrite for_rows_app.
  destruct (for_rows (journal_row d cols) [] l1) as [e|es]; simpl; [done|].
  rewrite for_rows_journal_acc.
  by destruct (for_rows (journal_row d cols) [] l2).
Qed.

(** On a row that holds a change record the loop body appends the entries
    of that record. *)
Lemma journal_row_change d cols row c :
  change_labels cols → is_change row c →
  journal_row d cols [] row = inr (entries_of d c).
Proof.
  intros (Hs & Ha & Hq & Hv) (Rs & Ra & Rq & Rv).
  unfold journal_row, row_getitem, row_get, cell_at, entries_of.
  rewrite !decide_True by done. rewrite Rs, Ra, Rq, Rv. simpl.
  destruct (0 <? quantity_change c)%Z; simpl; [done|].
  destruct (quantity_change c <? 0)%Z; simpl; done.
Qed.

Lemma generate_run today h adj d df :
  h !! adj = Some df →
  generate_journal_entries today adj d h
  = match journal_entries (default today d) df with
    | inl e => inl e
    | inr es => inr (es, h)
    end.
Proof.
  intros H. unfold generate_journal_entries.
  rewrite bind_run, (get_run _ _ _ H). reflexivity.
Qed.

(** C1. A change record with a positive quantity change gives exactly one
    entry, debit Securities Borrowed, credit Payable for Securities,
    quantity and amount the absolute values, description "Borrow
    securities " followed by the security id; with a negative quantity
    change it gives exactly one entry with the two accounts swapped and
    description "Return securities " followed by the security id.  The
    entry stands between the entries of the rows before and those of the
    rows after. *)
Theorem C1_borrow_and_return_entry
    today h adj d cols rows1 row rows2 es1 es2 c :
  h !! adj = Some (mkFrame cols (rows1 ++ row :: rows2)) →
  change_labels cols →
  is_change row c →
  journal_entries (default today d) (mkFrame cols rows1) = inr es1 →
  journal_entries (default today d) (mkFrame cols rows2) = inr es2 →
  ((0 < quantity_change c)%Z →
     generate_journal_entries today adj d h
     = inr (es1 ++ [ {| date := default today d;
                        security_id := Str (chg_security_id c);
                        account := Str (chg_account c);
                        debit_account := "Securities Borrowed";
                        credit_account := "Payable for Securities";
                        quantity := Num (Z.abs (quantity_change c));
                        amount := Num (Z.abs (value_change c));
                        description := "Borrow securities " +:+ chg_security_id c |} ]
                ++ es2, h)) ∧
  ((quantity_change c < 0)%Z →
     generate_journal_entries today adj d h
     = inr (es1 ++ [ {| date := default today d;
                        security_id := Str (chg_security_id c);
                        account := Str (chg_account c);
                        debit_account := "Payable for Securities";
                        credit_account := "Securities Borrowed";
                        quantity := Num (Z.abs (quantity_change c));
                        amount := Num (Z.abs (value_change c));
                        description := "Return securities " +:+ chg_security_id c |} ]
                ++ es2, h)).
Proof.
  intros Hadj Hcols Hrow H1 H2.
  rewrite (generate_run _ _ _ _ _ Hadj).
  rewrite journal_entries_app, H1; simpl.
  rewrite journal_entries_cons, (journal_row_change _ _ _ _ Hcols Hrow), H2; simpl.
  unfold entries_of. split; intros Hq.
  - apply Z.ltb_lt in Hq. rewrite Hq. reflexivity.
  - assert ((0 <? quantity_change c)%Z = false) as -> by (apply Z.ltb_ge; lia).
    apply Z.ltb_lt in Hq. rewrite Hq. reflexivity.
Qed.

(** C5. A row whose quantity change is zero adds no entry, whatever its
    value change is: the entries are those of the rows before followed by
    those of the rows after. *)
Theorem C5_zero_quantity_change_no_entry
    today h adj d cols rows1 row rows2 es1 es2 :
  h !! adj = Some (mkFrame cols (rows1 ++ row :: rows2)) →
  "quantity_change" ∈ cols →
  "value_change" ∈ cols →
  cell_at row "quantity_change" = Num 0 →
  journal_entries (default today d) (mkFrame cols rows1) = inr es1 →
  journal_entries (default today d) (mkFrame cols rows2) = inr es2 →
  generate_journal_entries today adj d h = inr (es1 ++ es2, h).
Proof.
  intros Hadj Hq Hv Hrow H1 H2.
  rewrite (generate_run _ _ _ _ _ Hadj).
  rewrite journal_entries_app, H1; simpl.
  rewrite journal_entries_cons.
  unfold journal_row at 1, row_getitem.
  rewrite !decide_True by done. rewrite Hrow. simpl.
  by rewrite H2.
Qed.

(** The entries of a frame of change records: those of each record, in
    the order of the rows. *)
Lemma journal_entries_changes d df cs :
  change_frame df cs →
  journal_entries d df = inr (cs ≫= entries_of d).
Proof.
  destruct df as [cols rs]. intros [Hcols Hrows]. simpl in *.
  induction Hrows as [|row c rs cs Hrow _ IH]; [done|].
  rewrite journal_entries_cons, (journal_row_change _ _ _ _ Hcols Hrow); simpl.
  by rewrite IH.
Qed.

Lemma entries_of_filter d cs :
  cs ≫= entries_of d
  = (λ c, if (0 <? quantity_change c)%Z then borrow_entry d c else return_entry d c)
      <$> filter (λ c, quantity_change c ≠ 0%Z) cs.
Proof.
  induction cs as [|c cs IH]; [done|].
  rewrite bind_cons, filter_cons, IH. unfold entries_of.
  destruct (Z.ltb_spec 0 (quantity_change c)).
  - rewrite decide_True by lia. simpl.
    destruct (Z.ltb_spec 0 (quantity_change c)); [done|lia].
  - destruct (Z.ltb_spec (quantity_change c) 0).
    + rewrite decide_True by lia. simpl.
      destruct (Z.ltb_spec 0 (quantity_change c)); [lia|done].
    + rewrite decide_False by lia. done.
Qed.

(** C6. Every entry built from a frame of change records has two
    different accounts, and a quantity and an amount that are numbers not
    below zero. *)
Theorem C6_entry_invariant today h adj d df cs :
  h !! adj = Some df →
  change_frame df cs →
  ∃ es, generate_journal_entries today adj d h = inr (es, h) ∧
        Forall (λ e, debit_account e ≠ credit_account e ∧
                     ∃ q a, quantity e = Num q ∧ (0 ≤ q)%Z ∧
                            amount e = Num a ∧ (0 ≤ a)%Z) es.
Proof.
  intros Hadj Hdf.
  rewrite (generate_run _ _ _ _ _ Hadj), (journal_entries_changes _ _ _ Hdf).
  eexists; split; [done|].
  apply Forall_forall. intros e He.
  apply list_elem_of_bind in He as (c & He & _).
  unfold entries_of in He.
  destruct (0 <? quantity_change c)%Z;
    [|destruct (quantity_change c <? 0)%Z];
    [apply list_elem_of_singleton in He as ->
    |apply list_elem_of_singleton in He as ->
    |by apply elem_of_nil in He];
    (split; [done|]);
    exists (Z.abs (quantity_change c)), (Z.abs (value_change c));
    simpl; repeat split; lia.
Qed.

(** C7. The entries of a frame of change records are one entry for each
    record whose quantity change is not zero, in the order of the
    records; a frame without rows gives no entry. *)
Theorem C7_one_entry_per_nonzero_change_in_order today h adj d df cs :
  h !! adj = Some df →
  (change_frame df cs →
   generate_journal_entries today adj d h
   = inr ((λ c, if (0 <? quantity_change c)%Z
                then borrow_entry (default today d) c
                else return_entry (default today d) c)
            <$> filter (λ c, quantity_change c ≠ 0%Z) cs, h)) ∧
  (rows df = [] → generate_journal_entries today adj d h = inr ([], h)).
Proof.
  intros Hadj. rewrite (generate_run _ _ _ _ _ Hadj). split.
  - intros Hdf.
    by rewrite (journal_entries_changes _ _ _ Hdf), entries_of_filter.
  - intros Hnil. unfold journal_entries. by rewrite Hnil.
Qed.

(* ===================================================================== *)
(** ** The reconciler *)
(* ===================================================================== *)

Lemma insert_new_subseteq (h h1 : gmap loc DataFrame) l df :
  h ⊆ h1 → h !! l = None → h ⊆ <[l := df]> h1.
Proof.
  intros Hsub Hl. apply map_subseteq_spec. intros i x Hi.
  rewrite lookup_insert_ne by congruence.
  by apply (lookup_weaken h).
Qed.

Lemma fresh_loc_None_below (h h1 : gmap loc DataFrame) :
  h ⊆ h1 → h !! fresh (dom h1) = None.
Proof. intros Hsub. eapply lookup_weaken_None; [apply fresh_loc_None|done]. Qed.

Lemma copy_last (h : gmap loc DataFrame) l df :
  h !! l = Some df →
  copy l h = inr (fresh (dom h), <[fresh (dom h) := df]> h).
Proof. intros H. unfold copy, get, new, mbind, M_bind. by rewrite H. Qed.

(** Steps of the proof below: the case where the pandas call raises;
    a new object, which the store [h] of the call did not hold; an
    object of the call changed in place. *)
Ltac on_raise :=
  match goal with
  | |- match match ?r with inl _ => _ | inr _ => _ end with _ => _ end =>
      destruct r; simpl; [done|]
  | |- match ?r ≫= _ with _ => _ end =>
      destruct r; simpl; [done|]
  | |- match ?r with inl _ => _ | inr _ => _ end =>
      destruct r; simpl; [done|]
  end.

Ltac new_object h l h' :=
  match goal with
  | |- context [<[fresh (dom ?h0) := ?df]> ?h0] =>
      set (l := fresh (dom h0));
      assert (h !! l = None)
        by (first [apply fresh_loc_None | by apply fresh_loc_None_below]);
      set (h' := <[l := df]> h0);
      assert (h ⊆ h') by by apply insert_new_subseteq
  end.

Ltac updated_object h h' :=
  match goal with
  | |- context [<[?l := ?df]> ?h0] =>
      set (h' := <[l := df]> h0);
      assert (h ⊆ h') by by apply insert_new_subseteq
  end.

(** A call of [calculate_adjustments] raises what [adjustments_value]
    raises, or returns a new object that holds the frame
    [adjustments_value] gives and leaves every object of the store as it
    was. *)
Lemma calculate_adjustments_run h cur prev dc odp :
  h !! cur = Some dc →
  previous_at h prev odp →
  match adjustments_value dc odp with
  | inl e => calculate_adjustments cur prev h = inl e
  | inr adj =>
      ∃ l' h', calculate_adjustments cur prev h = inr (l', h') ∧
               h' !! l' = Some adj ∧ h !! l' = None ∧ h ⊆ h'
  end.
Proof.
  intros Hcur Hprev.
  destruct prev as [p|], odp as [dp|]; simpl in Hprev; try done;
    unfold calculate_adjustments, adjustments_value.
  - rewrite (pd_merge_run _ _ _ _ _ _ _ _ Hcur Hprev). on_raise.
    new_object h lm hm.
    erewrite (fillna_run hm lm) by apply lookup_insert_eq.
    new_object h lf hf.
    do 2 (erewrite (getitem_run hf lf) by apply lookup_insert_eq; on_raise).
    rewrite bind_lift. on_raise.
    erewrite (setitem_run hf lf) by apply lookup_insert_eq. on_raise.
    updated_object h hq.
    do 2 (erewrite (getitem_run hq lf) by apply lookup_insert_eq; on_raise).
    rewrite bind_lift. on_raise.
    erewrite (setitem_run hq lf) by apply lookup_insert_eq. on_raise.
    updated_object h hv.
    do 2 (erewrite (getitem_run hv lf) by apply lookup_insert_eq; on_raise).
    erewrite (getitem_mask_run hv lf) by apply lookup_insert_eq. on_raise.
    new_object h lk hk.
    erewrite (copy_last hk lk) by apply lookup_insert_eq.
    eexists _, _. split; [done|].
    split; [apply lookup_insert_eq|].
    split; [by apply fresh_loc_None_below|].
    apply insert_new_subseteq; [done|by apply fresh_loc_None_below].
  - rewrite (copy_run _ _ _ _ Hcur).
    new_object h la ha.
    erewrite (getitem_run ha la) by apply lookup_insert_eq. on_raise.
    erewrite (setitem_run ha la) by apply lookup_insert_eq. on_raise.
    updated_object h hq.
    erewrite (getitem_run hq la) by apply lookup_insert_eq. on_raise.
    erewrite (setitem_run hq la) by apply lookup_insert_eq. on_raise.
    eexists _, _. split; [done|].
    split; [apply lookup_insert_eq|].
    split; [done|]. by apply insert_new_subseteq.
Qed.

(** [df[c] = df[c']] for a column [c'] of the frame. *)
Lemma setitem_of_getitem df c c' :
  c' ∈ columns df →
  df_getitem df c' ≫= df_setitem df c
  = inr {| columns := if decide (c ∈ columns df) then columns df
                      else columns df ++ [c];
           rows := (λ r, <[c := cell_at r c']> r) <$> rows df |}.
Proof.
  intros Hc. unfold df_getitem. rewrite decide_True by done. simpl.
  unfold df_setitem. rewrite decide_True by by rewrite length_fmap.
  unfold ok. do 2 f_equal.
  by rewrite zip_with_fmap_r, zip_with_diag.
Qed.

Lemma elem_of_setitem_columns (cols : list string) c c' :
  c' ∈ cols → c' ∈ (if decide (c ∈ cols) then cols else cols ++ [c]).
Proof. intros H. case_decide; [done|]. apply elem_of_app. by left. Qed.

Lemma adjustments_value_None df :
  "quantity" ∈ columns df → "value" ∈ columns df →
  ∃ cols,
    adjustments_value df None
    = inr {| columns := cols;
             rows := (λ r, <["value_change" := cell_at r "value"]>
                             (<["quantity_change" := cell_at r "quantity"]> r))
                       <$> rows df |}.
Proof.
  intros Hq Hv. unfold adjustments_value.
  pose proof (setitem_of_getitem df "quantity_change" "quantity" Hq) as E1.
  destruct (df_getitem df "quantity") as [e|q]; [done|]. simpl in *.
  rewrite E1. simpl.
  set (a1 := {| columns := _; rows := _ |}).
  assert ("value" ∈ columns a1) as Hv1 by by apply elem_of_setitem_columns.
  pose proof (setitem_of_getitem a1 "value_change" "value" Hv1) as E2.
  destruct (df_getitem a1 "value") as [e|v]; [done|]. simpl in *.
  rewrite E2. eexists. do 2 f_equal.
  unfold a1; simpl. rewrite <- list_fmap_compose. apply list_fmap_ext.
  intros i r _. simpl. f_equal.
  unfold cell_at. by rewrite lookup_insert_ne.
Qed.

(** C4. Without a previous snapshot the reconciler returns one row for
    each row of the current snapshot, in the same order: the row itself
    with [quantity_change] set to its quantity and [value_change] set to
    its value.  No row is left out, whatever its quantity and value. *)
Theorem C4_no_previous_every_record_is_a_change h cur df :
  h !! cur = Some df →
  "quantity" ∈ columns df →
  "value" ∈ columns df →
  ∃ l' h' adj,
    calculate_adjustments cur None h = inr (l', h') ∧
    h' !! l' = Some adj ∧
    length (rows adj) = length (rows df) ∧
    ∀ i r, rows df !! i = Some r →
      ∃ r', rows adj !! i = Some r' ∧
            cell_at r' "quantity_change" = cell_at r "quantity" ∧
            cell_at r' "value_change" = cell_at r "value" ∧
            ∀ c, c ≠ "quantity_change" → c ≠ "value_change" → r' !! c = r !! c.
Proof.
  intros Hcur Hq Hv.
  pose proof (calculate_adjustments_run h cur None df None Hcur I) as Hrun.
  destruct (adjustments_value_None df Hq Hv) as [cols E].
  rewrite E in Hrun. destruct Hrun as (l' & h' & Hcall & Hl' & _ & _).
  eexists l', h', _. split; [done|]. split; [done|]. simpl.
  split; [by rewrite length_fmap|].
  intros i r Hi. eexists. split; [by rewrite list_lookup_fmap, Hi|].
  unfold cell_at. rewrite lookup_insert_eq.
  rewrite lookup_insert_ne by done. rewrite lookup_insert_eq.
  repeat split. intros c Hc1 Hc2. by rewrite !lookup_insert_ne.
Qed.

(** *** The outer merge of two snapshots *)


Lemma key_of_position p :
  key_of on2 (position_row p) = [Str (pos_security_id p); Str (pos_account p)].
Proof. reflexivity. Qed.

Lemma key_of_position_eq p q :
  key_of on2 (position_row p) = key_of on2 (position_row q) ↔ pos_key p = pos_key q.
Proof.
  rewrite !key_of_position. unfold pos_key. split; intros H; congruence.
Qed.

Lemma key_of_position_elem p (C : list PositionRecord) :
  key_of on2 (position_row p) ∈ key_of on2 <$> (position_row <$> C)
  ↔ pos_key p ∈ pos_key <$> C.
Proof.
  rewrite <- list_fmap_compose, !list_elem_of_fmap.
  split; intros (c & Hc & Hin); exists c; (split; [|done]); simpl in *;
    by apply key_of_position_eq.
Qed.

Lemma filter_fmap_iff {A B} (f : A → B) (Q : B → Prop) (R : A → Prop)
    `{∀ y, Decision (Q y)} `{∀ x, Decision (R x)} (l : list A) :
  (∀ x, Q (f x) ↔ R x) → filter Q (f <$> l) = f <$> filter R l.
Proof.
  intros HQR. induction l as [|x l IH]; [done|].
  rewrite fmap_cons, !filter_cons, IH.
  destruct (decide (Q (f x))) as [HQ|HQ], (decide (R x)) as [HR|HR];
    [done|by apply HQR in HQ|by apply HQR in HR|done].
Qed.

(** In a snapshot without a repeated key, the records of a key are the
    record [find_key] finds. *)
Lemma find_key_None k (P : list PositionRecord) : k ∉ pos_key <$> P → find_key k P = None.
Proof.
  induction P as [|p P IH]; [done|].
  rewrite fmap_cons, not_elem_of_cons. intros [Hk HP].
  unfold find_key; simpl. rewrite bool_decide_eq_false_2 by done. by apply IH.
Qed.


Lemma find_key_elem p (P : list PositionRecord) :
  NoDup (pos_key <$> P) → p ∈ P → find_key (pos_key p) P = Some p.
Proof.
  induction P as [|q P IH]; [by intros _ ?%elem_of_nil|].
  rewrite fmap_cons, NoDup_cons. intros [Hq HP] Hin.
  unfold find_key; simpl.
  destruct (decide (pos_key q = pos_key p)) as [Hk|Hk].
  - rewrite bool_decide_eq_true_2 by done.
    apply elem_of_cons in Hin as [->|Hin]; [done|].
    destruct Hq. rewrite Hk. by apply list_elem_of_fmap_2.
  - rewrite bool_decide_eq_false_2 by done.
    apply elem_of_cons in Hin as [->|Hin]; [done|]. by apply IH.
Qed.

Lemma filter_key_NoDup k (P : list PositionRecord) :
  NoDup (pos_key <$> P) →
  filter (λ p, pos_key p = k) P = option_list (find_key k P).
Proof.
  induction P as [|p P IH]; [done|].
  rewrite fmap_cons, NoDup_cons. intros [Hp HP].
  rewrite filter_cons. unfold find_key; simpl.
  destruct (decide (pos_key p = k)) as [Hk|Hk].
  - rewrite bool_decide_eq_true_2 by done. simpl. f_equal.
    rewrite (IH HP), find_key_None; [done|]. by rewrite <- Hk.
  - rewrite bool_decide_eq_false_2 by done. by apply IH.
Qed.

Lemma outer_pairs_snapshots (C P : list PositionRecord) :
  NoDup (pos_key <$> P) →
  outer_pairs on2 (position_row <$> C) (position_row <$> P)
  = pair_rows <$> outer_join C P.
Proof.
  intros HP. unfold outer_pairs, outer_join. rewrite fmap_app. f_equal.
  - rewrite list_fmap_bind. induction C as [|c C IH]; [done|].
    rewrite bind_cons, !fmap_cons, IH. f_equal. simpl.
    rewrite (filter_fmap_iff position_row _ (λ p, pos_key p = pos_key c))
      by (intros p; apply key_of_position_eq).
    rewrite (filter_key_NoDup _ _ HP).
    by destruct (find_key (pos_key c) P).
  - rewrite (filter_fmap_iff position_row _ (λ p, pos_key p ∉ pos_key <$> C)).
    + by rewrite <- !list_fmap_compose.
    + intros p. by rewrite key_of_position_elem.
Qed.

Lemma merge_snapshots (C P : list PositionRecord) :
  NoDup (pos_key <$> P) →
  merge (snapshot_frame C) (snapshot_frame P) on2 ("_current", "_previous")
  = inr {| columns := merged_cols;
           rows := (λ pr, merged_row on2 snap_cols snap_cols "_current" "_previous"
                            (pair_rows pr).1 (pair_rows pr).2)
                     <$> outer_join C P |}.
Proof.
  intros HP. unfold merge, snapshot_frame. cbn [columns rows].
  replace (filter (λ k, k ∉ snap_cols ∨ k ∉ snap_cols) on2) with (@nil string)
    by (symmetry; vm_compute; reflexivity).
  cbv zeta. cbn [fst snd].
  replace ((left_label on2 snap_cols "_current" <$> snap_cols)
           ++ (right_label snap_cols "_previous" <$> filter (λ c, c ∉ on2) snap_cols))
    with merged_cols by (vm_compute; reflexivity).
  rewrite decide_True by compute_done.
  rewrite (outer_pairs_snapshots _ _ HP), <- list_fmap_compose.
  reflexivity.
Qed.

Lemma outer_join_shape (C P : list PositionRecord) pr :
  pr ∈ outer_join C P → (∃ c o, pr = (Some c, o)) ∨ (∃ p, pr = (None, Some p)).
Proof.
  unfold outer_join. rewrite elem_of_app, !list_elem_of_fmap.
  intros [(c & -> & _)|(p & -> & _)]; eauto.
Qed.

Lemma fillna_merged_row pr :
  (∃ c o, pr = (Some c, o)) ∨ (∃ p, pr = (None, Some p)) →
  list_to_map
    ((λ c, (c, fill (Num 0)
                 (cell_at (merged_row on2 snap_cols snap_cols "_current" "_previous"
                             (pair_rows pr).1 (pair_rows pr).2) c)))
       <$> merged_cols)
  = joined_row pr.
Proof.
  intros [(c & o & ->)|(p & ->)].
  - destruct c as [s a q v], o as [[s' a' q' v']|]; vm_compute; reflexivity.
  - destruct p as [s a q v]; vm_compute; reflexivity.
Qed.

Lemma result_bind_ok {A B} (x : A) (k : A → result B) : (inr x ≫= k) = k x.
Proof. reflexivity. Qed.

(** *** Columns computed row by row *)

Section columns_of_rows.
Context {X : Type} (F : X → gmap string cell).

Lemma series_sub_fmap (f g : X → Z) (l : list X) :
  series_sub ((λ x, Num (f x)) <$> l) ((λ x, Num (g x)) <$> l)
  = inr ((λ x, Num (f x - g x)) <$> l).
Proof.
  induction l as [|x l IH]; [done|].
  rewrite !fmap_cons. cbn [series_sub py_sub]. unfold ok. simpl. by rewrite IH.
Qed.

(** [df[c] = df[a] - df[b]] on a frame whose columns [a] and [b] hold
    numbers, followed by [k]. *)
Lemma assign_difference {R} cols (l : list X) a b c (fa fb : X → Z)
    (k : DataFrame → result R) :
  a ∈ cols → b ∈ cols →
  (∀ x, cell_at (F x) a = Num (fa x)) →
  (∀ x, cell_at (F x) b = Num (fb x)) →
  (xa ← df_getitem (mkFrame cols (F <$> l)) a;
   xb ← df_getitem (mkFrame cols (F <$> l)) b;
   d ← series_sub xa xb;
   m ← df_setitem (mkFrame cols (F <$> l)) c d;
   k m)
  = k (mkFrame (if decide (c ∈ cols) then cols else cols ++ [c])
               ((λ x, <[c := Num (fa x - fb x)]> (F x)) <$> l)).
Proof.
  intros Ha Hb Hfa Hfb. unfold df_getitem. cbn [columns rows].
  rewrite !decide_True by done. simpl.
  rewrite <- !list_fmap_compose.
  rewrite (list_fmap_ext ((λ r, cell_at r a) ∘ F) (λ x, Num (fa x)) l)
    by (intros; apply Hfa).
  rewrite (list_fmap_ext ((λ r, cell_at r b) ∘ F) (λ x, Num (fb x)) l)
    by (intros; apply Hfb).
  rewrite series_sub_fmap. simpl.
  unfold df_setitem. cbn [columns rows].
  rewrite decide_True by by rewrite !length_fmap.
  simpl. f_equal. f_equal.
  rewrite zip_with_fmap_l, zip_with_fmap_r, zip_with_diag. done.
Qed.

(** [df[(df[a] != 0) | (df[b] != 0)]] *)
Lemma mask_changed cols (l : list X) a b (fa fb : X → Z) :
  a ∈ cols → b ∈ cols →
  (∀ x, cell_at (F x) a = Num (fa x)) →
  (∀ x, cell_at (F x) b = Num (fb x)) →
  (q ← df_getitem (mkFrame cols (F <$> l)) a;
   v ← df_getitem (mkFrame cols (F <$> l)) b;
   df_mask (mkFrame cols (F <$> l)) (series_or (series_ne0 q) (series_ne0 v)))
  = inr (mkFrame cols (F <$> filter (λ x, fa x ≠ 0%Z ∨ fb x ≠ 0%Z) l)).
Proof.
  intros Ha Hb Hfa Hfb. unfold df_getitem. cbn [columns rows].
  rewrite !decide_True by done. simpl.
  unfold df_mask, series_or, series_ne0. cbn [columns rows].
  rewrite decide_True by by rewrite length_zip_with, !length_fmap, Nat.min_id.
  unfold ok. do 2 f_equal.
  induction l as [|x l IH]; [done|].
  rewrite !fmap_cons. cbn [zip_with]. rewrite !filter_cons. cbn [snd].
  rewrite Hfa, Hfb. simpl.
  destruct (Z.eqb_spec (fa x) 0), (Z.eqb_spec (fb x) 0); simpl.
  - rewrite decide_False by lia. apply IH.
  - rewrite decide_True by lia. rewrite fmap_cons. simpl. f_equal. apply IH.
  - rewrite decide_True by lia. rewrite fmap_cons. simpl. f_equal. apply IH.
  - rewrite decide_True by lia. rewrite fmap_cons. simpl. f_equal. apply IH.
Qed.

End columns_of_rows.

(** The adjustments of two snapshots: the pairs of the outer join whose
    quantity or value changed, each with its two deltas. *)
Lemma adjustments_value_snapshots (C P : list PositionRecord) :
  NoDup (pos_key <$> P) →
  adjustments_value (snapshot_frame C) (Some (snapshot_frame P))
  = inr {| columns := merged_cols ++ ["quantity_change"; "value_change"];
           rows := change_row <$>
                     filter (λ pr, quantity_delta pr ≠ 0%Z ∨ value_delta pr ≠ 0%Z)
                            (outer_join C P) |}.
Proof.
  intros HP. unfold adjustments_value.
  rewrite (merge_snapshots _ _ HP), result_bind_ok. cbv zeta.
  unfold df_fillna. cbn [columns rows].
  rewrite <- list_fmap_compose.
  rewrite (list_fmap_ext _ joined_row (outer_join C P)).
  2:{ intros i pr Hi. simpl. apply fillna_merged_row.
      apply (outer_join_shape C P). by eapply list_elem_of_lookup_2. }
  rewrite (assign_difference joined_row merged_cols (outer_join C P)
             "quantity_current" "quantity_previous" "quantity_change"
             (λ pr, from_option pos_quantity 0%Z pr.1)
             (λ pr, from_option pos_quantity 0%Z pr.2));
    [|compute_done|compute_done|done|done].
  rewrite decide_False by compute_done.
  rewrite (assign_difference _ _ (outer_join C P)
             "value_current" "value_previous" "value_change"
             (λ pr, from_option pos_value 0%Z pr.1)
             (λ pr, from_option pos_value 0%Z pr.2));
    [|compute_done|compute_done|done|done].
  rewrite decide_False by compute_done.
  rewrite (mask_changed _ _ (outer_join C P) "quantity_change" "value_change"
             quantity_delta value_delta);
    [|compute_done|compute_done|done|done].
  reflexivity.
Qed.

(** *** The pairs of the outer join, key by key *)




(** Every pair of the join is the pair of the two records of its key. *)
Lemma outer_join_pair (C P : list PositionRecord) pr :
  NoDup (pos_key <$> C) → NoDup (pos_key <$> P) →
  pr ∈ outer_join C P →
  (pair_key pr ∈ pos_key <$> C ∨ pair_key pr ∈ pos_key <$> P) ∧
  pr = (find_key (pair_key pr) C, find_key (pair_key pr) P).
Proof.
  intros HC HP Hpr. unfold outer_join in Hpr.
  rewrite elem_of_app, !list_elem_of_fmap in Hpr.
  destruct Hpr as [(c & -> & Hc)|(p & -> & Hp)]; simpl.
  - split; [left; by apply list_elem_of_fmap_2|].
    by rewrite (find_key_elem _ _ HC Hc).
  - apply list_elem_of_filter in Hp as [Hk Hp].
    split; [right; by apply list_elem_of_fmap_2|].
    by rewrite (find_key_None _ _ Hk), (find_key_elem _ _ HP Hp).
Qed.


Lemma change_row_lookups pr :
  change_row pr !! "security_id" = Some (Str (pair_key pr).1) ∧
  change_row pr !! "account" = Some (Str (pair_key pr).2) ∧
  change_row pr !! "quantity_current" = Some (Num (from_option pos_quantity 0%Z pr.1)) ∧
  change_row pr !! "quantity_previous" = Some (Num (from_option pos_quantity 0%Z pr.2)) ∧
  change_row pr !! "value_current" = Some (Num (from_option pos_value 0%Z pr.1)) ∧
  change_row pr !! "value_previous" = Some (Num (from_option pos_value 0%Z pr.2)) ∧
  change_row pr !! "quantity_change" = Some (Num (quantity_delta pr)) ∧
  change_row pr !! "value_change" = Some (Num (value_delta pr)).
Proof. repeat split; reflexivity. Qed.




Lemma calculate_adjustments_snapshots h cur prev (C P : list PositionRecord) :
  h !! cur = Some (snapshot_frame C) →
  h !! prev = Some (snapshot_frame P) →
  NoDup (pos_key <$> P) →
  ∃ l' h',
    calculate_adjustments cur (Some prev) h = inr (l', h') ∧
    h' !! l' = Some {| columns := merged_cols ++ ["quantity_change"; "value_change"];
                       rows := change_row <$>
                                 filter (λ pr, quantity_delta pr ≠ 0%Z ∨ value_delta pr ≠ 0%Z)
                                        (outer_join C P) |} ∧
    h !! l' = None ∧ h ⊆ h'.
Proof.
  intros Hcur Hprev HP.
  pose proof (calculate_adjustments_run h cur (Some prev) _ (Some (snapshot_frame P))
                Hcur Hprev) as Hrun.
  rewrite (adjustments_value_snapshots _ _ HP) in Hrun.
  exact Hrun.
Qed.



(* ===================================================================== *)
(** ** No shared state *)
(* ===================================================================== *)

(** C9. The reconciler and the entry builder keep no state between calls
    and change none of their arguments.  Two calls of the reconciler on
    snapshots of equal content raise the same exception or return frames
    of equal content, wherever the snapshots are in the store and
    whatever else the store holds; a call returns a new object and leaves
    every object of the store as it was.  Two calls of the entry builder
    on adjustments of equal content, with the same date given, return the
    same entries, whatever the clock says; a call leaves the store as it
    was. *)
Theorem C9_no_shared_state
    h1 h2 cur1 cur2 prev1 prev2 dc odp today1 today2 a1 a2 df d :
  h1 !! cur1 = Some dc →
  h2 !! cur2 = Some dc →
  previous_at h1 prev1 odp →
  previous_at h2 prev2 odp →
  h1 !! a1 = Some df →
  h2 !! a2 = Some df →
  frame_returned (calculate_adjustments cur1 prev1 h1)
  = frame_returned (calculate_adjustments cur2 prev2 h2) ∧
  (∀ l' h', calculate_adjustments cur1 prev1 h1 = inr (l', h') →
            h1 !! l' = None ∧ h1 ⊆ h') ∧
  fst <$> generate_journal_entries today1 a1 (Some d) h1
  = fst <$> generate_journal_entries today2 a2 (Some d) h2 ∧
  (∀ date es h', generate_journal_entries today1 a1 date h1 = inr (es, h') →
                 h' = h1).
Proof.
  intros Hc1 Hc2 Hp1 Hp2 Ha1 Ha2.
  pose proof (calculate_adjustments_run h1 cur1 prev1 dc odp Hc1 Hp1) as R1.
  pose proof (calculate_adjustments_run h2 cur2 prev2 dc odp Hc2 Hp2) as R2.
  split; [|split; [|split]].
  - destruct (adjustments_value dc odp) as [e|adj].
    + by rewrite R1, R2.
    + destruct R1 as (l1 & h1' & -> & E1 & _), R2 as (l2 & h2' & -> & E2 & _).
      simpl. by rewrite E1, E2.
  - intros l' h' Hcall.
    destruct (adjustments_value dc odp) as [e|adj]; [congruence|].
    destruct R1 as (l1 & h1' & E & _ & Hnew & Hsub).
    rewrite E in Hcall. by simplify_eq.
  - rewrite (generate_run _ _ _ _ _ Ha1), (generate_run _ _ _ _ _ Ha2). simpl.
    by destruct (journal_entries d df).
  - intros date es h'. rewrite (generate_run _ _ _ _ _ Ha1).
    destruct (journal_entries _ df); intros; by simplify_eq.
Qed.

(* ===================================================================== *)
(** ** The loader *)
(* ===================================================================== *)




(* ===================================================================== *)
(** ** The PDF merger *)
(* ===================================================================== *)


(** With a missing file in the list the loop never reaches its end: it
    returns at the existence check, or an [append] before it raises. *)
Lemma add_files_missing d merger (pdf_files : list string) p :
  p ∈ pdf_files →
  files d !! p = None →
  add_files d merger pdf_files = inr None ∨
  ∃ e, add_files d merger pdf_files = inl e.
Proof.
  intros Hin Hp. revert merger.
  induction pdf_files as [|f rest IH]; intros merger; [by apply elem_of_nil in Hin|].
  simpl. unfold path_exists.
  destruct (decide (is_Some (files d !! f))) as [Hf|Hf].
  - rewrite bool_decide_eq_true_2 by done. simpl.
    assert (p ∈ rest) as Hrest.
    { apply elem_of_cons in Hin as [->|?]; [|done].
      rewrite Hp in Hf. by destruct Hf. }
    destruct (negb _); [by apply IH|].
    destruct (append d merger f) as [e|merger']; simpl; [eauto|by apply IH].
  - rewrite bool_decide_eq_false_2 by done. simpl. by left.
Qed.

(** C10. If a path of [pdf_files] does not exist, [merge_pdfs] returns
    [False] and the disk is as before: the output file is not written. *)
Theorem C10_missing_input_no_output d (pdf_files : list string) output_file p :
  p ∈ pdf_files →
  files d !! p = None →
  merge_pdfs d pdf_files output_file = (false, d).
Proof.
  intros Hin Hp. unfold merge_pdfs.
  destruct (add_files_missing d [] pdf_files p Hin Hp) as [->|[e ->]]; done.
Qed.

(* ===================================================================== *)
(** ** The two steps together *)
(* ===================================================================== *)

(** A position that grows from 60 to 100 and from 600 to 1000: one change
    of +40 and +400, one borrow entry. *)
Example reconcile_then_build :
  (fst <$> (adjustments ← calculate_adjustments 1%positive (Some 2%positive);
            generate_journal_entries "2026-11-03" adjustments (Some "2026-01-31"))
             {[ 1%positive := snapshot_frame [mkPosition "SEC1" "ACC1" 100 1000];
                2%positive := snapshot_frame [mkPosition "SEC1" "ACC1" 60 600] ]})
  = inr [ mkEntry "2026-01-31" (Str "SEC1") (Str "ACC1")
            "Securities Borrowed" "Payable for Securities"
            (Num 40) (Num 400) "Borrow securities SEC1" ].
Proof. vm_compute. reflexivity. Qed.

(* ===================================================================== *)
(** ** The theorems on the sample data *)
(* ===================================================================== *)

Lemma C1_witness :
  generate_journal_entries "2026-11-03" 3%positive (Some "2026-01-31") sample_store
  = inr ([] ++ [sample_borrow_entry] ++ [sample_return_entry], sample_store) ∧
  generate_journal_entries "2026-11-03" 3%positive (Some "2026-01-31") sample_store
  = inr ([sample_borrow_entry] ++ [sample_return_entry] ++ [], sample_store).
Proof.
  split.
  - refine (proj1 (C1_borrow_and_return_entry "2026-11-03" sample_store 3%positive
                     (Some "2026-01-31") change_cols
                     [] borrow_row [return_row; revaluation_row]
                     [] [sample_return_entry]
                     (mkChange "SEC1" "ACC1" 50 600) _ _ _ _ _) _).
    + reflexivity.
    + repeat split; compute_done.
    + repeat split; reflexivity.
    + reflexivity.
    + reflexivity.
    + simpl. lia.
  - refine (proj2 (C1_borrow_and_return_entry "2026-11-03" sample_store 3%positive
                     (Some "2026-01-31") change_cols
                     [borrow_row] return_row [revaluation_row]
                     [sample_borrow_entry] []
                     (mkChange "SEC2" "ACC1" (-50) (-600)) _ _ _ _ _) _).
    + reflexivity.
    + repeat split; compute_done.
    + repeat split; reflexivity.
    + reflexivity.
    + reflexivity.
    + simpl. lia.
Defined.

Lemma C5_witness :
  generate_journal_entries "2026-11-03" 3%positive None sample_store
  = inr ([ mkEntry "2026-11-03" (Str "SEC1") (Str "ACC1")
             "Securities Borrowed" "Payable for Securities"
             (Num 50) (Num 600) "Borrow securities SEC1";
           mkEntry "2026-11-03" (Str "SEC2") (Str "ACC1")
             "Payable for Securities" "Securities Borrowed"
             (Num 50) (Num 600) "Return securities SEC2" ] ++ [],
         sample_store).
Proof.
  apply (C5_zero_quantity_change_no_entry "2026-11-03" sample_store 3%positive None
           change_cols [borrow_row; return_row] revaluation_row []).
  - reflexivity.
  - compute_done.
  - compute_done.
  - reflexivity.
  - reflexivity.
  - reflexivity.
Defined.

Lemma sample_change_frame : change_frame sample_adjustments sample_changes.
Proof.
  split; [repeat split; compute_done|].
  repeat constructor.
Defined.

Lemma C6_witness :
  ∃ es, generate_journal_entries "2026-11-03" 3%positive None sample_store
        = inr (es, sample_store) ∧
        Forall (λ e, debit_account e ≠ credit_account e ∧
                     ∃ q a, quantity e = Num q ∧ (0 ≤ q)%Z ∧
                            amount e = Num a ∧ (0 ≤ a)%Z) es.
Proof.
  apply (C6_entry_invariant "2026-11-03" sample_store 3%positive None
           sample_adjustments sample_changes).
  - reflexivity.
  - exact sample_change_frame.
Defined.

Lemma C7_witness :
  generate_journal_entries "2026-11-03" 3%positive (Some "2026-01-31") sample_store
  = inr ([sample_borrow_entry; sample_return_entry], sample_store) ∧
  generate_journal_entries "2026-11-03" 9%positive None other_store
  = inr ([], other_store).
Proof.
  split.
  - refine (proj1 (C7_one_entry_per_nonzero_change_in_order "2026-11-03" sample_store
                     3%positive (Some "2026-01-31") sample_adjustments sample_changes _) _).
    + reflexivity.
    + exact sample_change_frame.
  - refine (proj2 (C7_one_entry_per_nonzero_change_in_order "2026-11-03" other_store
                     9%positive None (mkFrame [] []) [] _) _).
    + reflexivity.
    + reflexivity.
Defined.



Lemma C4_witness :
  ∃ l' h' adj,
    calculate_adjustments 1%positive None sample_store = inr (l', h') ∧
    h' !! l' = Some adj ∧
    length (rows adj) = length (rows (snapshot_frame sample_current)) ∧
    ∀ i r, rows (snapshot_frame sample_current) !! i = Some r →
      ∃ r', rows adj !! i = Some r' ∧
            cell_at r' "quantity_change" = cell_at r "quantity" ∧
            cell_at r' "value_change" = cell_at r "value" ∧
            ∀ c, c ≠ "quantity_change" → c ≠ "value_change" → r' !! c = r !! c.
Proof.
  apply (C4_no_previous_every_record_is_a_change sample_store 1%positive
           (snapshot_frame sample_current)).
  - reflexivity.
  - compute_done.
  - compute_done.
Defined.

Lemma C9_witness :
  frame_returned (calculate_adjustments 1%positive (Some 2%positive) sample_store)
  = frame_returned (calculate_adjustments 8%positive (Some 7%positive) other_store) ∧
  (∀ l' h', calculate_adjustments 1%positive (Some 2%positive) sample_store
            = inr (l', h') →
            sample_store !! l' = None ∧ sample_store ⊆ h') ∧
  fst <$> generate_journal_entries "2026-11-03" 3%positive (Some "2026-01-31") sample_store
  = fst <$> generate_journal_entries "2027-02-14" 5%positive (Some "2026-01-31") other_store ∧
  (∀ date es h', generate_journal_entries "2026-11-03" 3%positive date sample_store
                 = inr (es, h') → h' = sample_store).
Proof.
  apply (C9_no_shared_state sample_store other_store 1%positive 8%positive
           (Some 2%positive) (Some 7%positive)
           (snapshot_frame sample_current) (Some (snapshot_frame sample_previous))
           "2026-11-03" "2027-02-14" 3%positive 5%positive sample_adjustments
           "2026-01-31").
  - reflexivity.
  - reflexivity.
  - reflexivity.
  - reflexivity.
  - reflexivity.
  - reflexivity.
Defined.

Lemma C10_witness :
  merge_pdfs sample_disk ["a.pdf"; "missing.pdf"] "merged.pdf" = (false, sample_disk).
Proof.
  apply (C10_missing_input_no_output sample_disk ["a.pdf"; "missing.pdf"]
           "merged.pdf" "missing.pdf").
  - compute_done.
  - reflexivity.
Defined.



(* ===================================================================== *)
(** ** Further properties of the entry builder *)
(* ===================================================================== *)




(** X1. On a frame with at least one row the entry builder needs both
    change columns: without [quantity_change] it raises KeyError for it,
    and with [quantity_change] but without [value_change] it raises
    KeyError for [value_change], also when no row would give an entry,
    because both cells are read before the quantity change is tested. *)
Theorem X1_builder_needs_both_change_columns today h adj d df :
  h !! adj = Some df →
  rows df ≠ [] →
  ("quantity_change" ∉ columns df →
   generate_journal_entries today adj d h = inl (KeyError "quantity_change")) ∧
  ("quantity_change" ∈ columns df → "value_change" ∉ columns df →
   generate_journal_entries today adj d h = inl (KeyError "value_change")).
Proof.
  intros Hadj Hrows. rewrite (generate_run _ _ _ _ _ Hadj).
  destruct df as [cols [|row rs]]; [done|]. cbn [columns].
  rewrite journal_entries_cons. unfold journal_row, row_getitem.
  split.
  - intros Hq. rewrite (decide_False _ _ Hq). reflexivity.
  - intros Hq Hv. rewrite (decide_True _ _ Hq), (decide_False _ _ Hv).
    reflexivity.
Qed.





(* ===================================================================== *)
(** ** The reconciler followed by the entry builder *)
(* ===================================================================== *)

Lemma calculate_adjustments_args h cur prev l' h' :
  calculate_adjustments cur prev h = inr (l', h') →
  ∃ dc odp, h !! cur = Some dc ∧ previous_at h prev odp.
Proof.
  intros Hcall.
  destruct (h !! cur) as [dc|] eqn:Hcur.
  - destruct prev as [p|].
    + destruct (h !! p) as [dp|] eqn:Hp.
      * by exists dc, (Some dp).
      * exfalso. revert Hcall.
        unfold calculate_adjustments, pd_merge, get, mbind, M_bind.
        by rewrite Hcur, Hp.
    + by exists dc, None.
  - exfalso. revert Hcall. destruct prev as [p|];
      unfold calculate_adjustments, pd_merge, copy, get, mbind, M_bind;
      by rewrite Hcur.
Qed.

(** A successful call returns the frame [adjustments_value] gives. *)
Lemma calculate_adjustments_returns h cur prev l' h' :
  calculate_adjustments cur prev h = inr (l', h') →
  ∃ dc odp adj, h !! cur = Some dc ∧ previous_at h prev odp ∧
                adjustments_value dc odp = inr adj ∧ h' !! l' = Some adj.
Proof.
  intros Hcall.
  destruct (calculate_adjustments_args _ _ _ _ _ Hcall) as (dc & odp & Hcur & Hprev).
  pose proof (calculate_adjustments_run h cur prev dc odp Hcur Hprev) as R.
  destruct (adjustments_value dc odp) as [e|adj] eqn:Eadj; [congruence|].
  destruct R as (l1 & h1 & E & Hl1 & _). rewrite E in Hcall.
  inversion Hcall; subst. by exists dc, odp, adj.
Qed.

(** *** Columns and cells through the pandas calls *)

Lemma getitem_ok df c xs :
  df_getitem df c = inr xs →
  c ∈ columns df ∧ xs = (λ r, cell_at r c) <$> rows df.
Proof. unfold df_getitem. case_decide; [|done]. intros E. by inversion E. Qed.

Lemma setitem_ok df c vals df' :
  df_setitem df c vals = inr df' →
  length vals = length (rows df) ∧
  (∀ c', c' ∈ columns df' ↔ c' = c ∨ c' ∈ columns df) ∧
  rows df' = zip_with (λ r v, <[c := v]> r) (rows df) vals.
Proof.
  unfold df_setitem. case_decide as Hlen; [|done].
  intros E. inversion E; subst; clear E. cbn [columns rows].
  split; [done|]. split; [|done].
  intros c'. case_decide as Hc.
  - split; [by right|]. intros [->|?]; done.
  - rewrite elem_of_app, list_elem_of_singleton. tauto.
Qed.

Lemma mask_ok df mask df' :
  df_mask df mask = inr df' →
  columns df' = columns df ∧ ∀ r, r ∈ rows df' → r ∈ rows df.
Proof.
  unfold df_mask. case_decide; [|done].
  intros E. inversion E; subst; clear E. cbn [columns rows].
  split; [done|]. intros r Hr.
  apply list_elem_of_fmap in Hr as ([r' b] & -> & Hr).
  apply list_elem_of_filter in Hr as [_ Hr].
  by apply elem_of_zip_l in Hr.
Qed.

Lemma list_to_map_labelled (g : string → cell) (cols : list string) c :
  c ∈ cols →
  (list_to_map ((λ c, (c, g c)) <$> cols) : gmap string cell) !! c = Some (g c).
Proof.
  induction cols as [|c0 cols IH]; [by intros ?%elem_of_nil|].
  intros Hc. rewrite fmap_cons. cbn [list_to_map foldr].
  destruct (decide (c0 = c)) as [->|Hne].
  - apply lookup_insert_eq.
  - rewrite lookup_insert_ne by done.
    apply elem_of_cons in Hc as [?|?]; [congruence|]. by apply IH.
Qed.

(** After [fillna(0)] no cell of a column of the frame is missing. *)
Lemma fillna_no_NaN df c r :
  c ∈ columns df → r ∈ rows (df_fillna df (Num 0)) → cell_at r c ≠ NaN.
Proof.
  intros Hc Hr. unfold df_fillna in Hr. cbn [rows] in Hr.
  apply list_elem_of_fmap in Hr as (r0 & -> & _).
  unfold cell_at at 1.
  rewrite (list_to_map_labelled (λ c, fill (Num 0) (cell_at r0 c)) _ _ Hc). simpl.
  by destruct (cell_at r0 c).
Qed.

(** A difference of two columns without missing cells holds numbers. *)
Lemma series_sub_num xs ys ds :
  series_sub xs ys = inr ds →
  Forall (λ x, x ≠ NaN) xs → Forall (λ y, y ≠ NaN) ys →
  Forall is_num ds.
Proof.
  revert ys ds. induction xs as [|x xs IH]; intros ys ds.
  - simpl. intros H _ _. inversion H. constructor.
  - destruct ys as [|y ys]; simpl.
    + intros H _ _. inversion H. constructor.
    + destruct (py_sub x y) as [e|d] eqn:Exy; simpl; [done|].
      destruct (series_sub xs ys) as [e|ds'] eqn:Es; simpl; [done|].
      intros H Hx Hy. inversion H; subst; clear H.
      apply Forall_cons in Hx as [Hx Hxs], Hy as [Hy Hys].
      constructor; [|by eapply IH].
      destruct x as [?|a|], y as [?|b|]; simpl in Exy; try done.
      inversion Exy. by exists (a - b)%Z.
Qed.

Lemma zip_with_insert_elem c (rs : list (gmap string cell)) (vals : list cell) r' :
  r' ∈ zip_with (λ r v, <[c := v]> r) rs vals →
  ∃ r v, r ∈ rs ∧ v ∈ vals ∧ r' = <[c := v]> r.
Proof.
  intros H. apply elem_of_zip_with in H as (r & v & -> & Hr & Hv). eauto.
Qed.

Lemma merge_key_columns dc dp on sfx m0 k :
  merge dc dp on sfx = inr m0 → k ∈ on → k ∈ columns m0.
Proof.
  unfold merge.
  destruct (filter _ on) as [|k0 ks] eqn:Ef; [|done].
  case_decide; [|done]. intros E Hk. inversion E; subst; clear E. cbn [columns].
  assert (k ∈ columns dc) as Hl.
  { destruct (decide (k ∈ columns dc)) as [?|Hn]; [done|].
    exfalso. eapply (filter_nil_not_elem_of _ _ k Ef); [by left|done]. }
  apply elem_of_app. left. apply list_elem_of_fmap. exists k. split; [|done].
  unfold left_label. by rewrite decide_True.
Qed.

(** With a previous snapshot the frame returned has the four columns the
    entry builder reads, and numbers in the two change columns. *)
Lemma adjustments_value_Some_shape dc dp adj :
  adjustments_value dc (Some dp) = inr adj →
  "security_id" ∈ columns adj ∧ "account" ∈ columns adj ∧
  "quantity_change" ∈ columns adj ∧ "value_change" ∈ columns adj ∧
  Forall (λ r, is_num (cell_at r "quantity_change") ∧
               is_num (cell_at r "value_change")) (rows adj).
Proof.
  unfold adjustments_value.
  destruct (merge dc dp _ _) as [e|m0] eqn:Em; [done|]. rewrite result_bind_ok.
  cbv zeta. set (m := df_fillna m0 (Num 0)).
  assert ("security_id" ∈ columns m ∧ "account" ∈ columns m) as [Hs Ha].
  { split; apply (merge_key_columns _ _ _ _ _ _ Em); compute_done. }
  destruct (df_getitem m "quantity_current") as [e|qc] eqn:Eqc; [done|].
  rewrite result_bind_ok.
  destruct (df_getitem m "quantity_previous") as [e|qp] eqn:Eqp; [done|].
  rewrite result_bind_ok.
  destruct (series_sub qc qp) as [e|dq] eqn:Edq; [done|]. rewrite result_bind_ok.
  destruct (df_setitem m "quantity_change" dq) as [e|m1] eqn:Em1; [done|].
  rewrite result_bind_ok.
  destruct (df_getitem m1 "value_current") as [e|vc] eqn:Evc; [done|].
  rewrite result_bind_ok.
  destruct (df_getitem m1 "value_previous") as [e|vp] eqn:Evp; [done|].
  rewrite result_bind_ok.
  destruct (series_sub vc vp) as [e|dv] eqn:Edv; [done|]. rewrite result_bind_ok.
  destruct (df_setitem m1 "value_change" dv) as [e|m2] eqn:Em2; [done|].
  rewrite result_bind_ok.
  destruct (df_getitem m2 "quantity_change") as [e|q] eqn:Eq; [done|].
  rewrite result_bind_ok.
  destruct (df_getitem m2 "value_change") as [e|v] eqn:Ev; [done|].
  rewrite result_bind_ok. intros Emask.
  apply getitem_ok in Eqc as [Hqc ->], Eqp as [Hqp ->].
  apply setitem_ok in Em1 as (_ & Hc1 & Hr1).
  apply getitem_ok in Evc as [Hvc ->], Evp as [Hvp ->].
  apply setitem_ok in Em2 as (_ & Hc2 & Hr2).
  apply mask_ok in Emask as [Hcols Hrows]. rewrite Hcols.
  assert (Forall is_num dq) as Hdq.
  { apply (series_sub_num _ _ _ Edq); apply Forall_fmap, Forall_forall;
      intros r Hr; by apply (fillna_no_NaN m0). }
  assert (∀ c r', c ≠ "quantity_change" → c ∈ columns m1 → r' ∈ rows m1 →
                  cell_at r' c ≠ NaN) as Hm1.
  { intros c r' Hne Hc Hr'. rewrite Hr1 in Hr'.
    apply zip_with_insert_elem in Hr' as (r & x & Hr & _ & ->).
    unfold cell_at. rewrite lookup_insert_ne by done.
    apply (fillna_no_NaN m0); [|done].
    apply Hc1 in Hc as [?|?]; done. }
  assert (Forall is_num dv) as Hdv.
  { apply (series_sub_num _ _ _ Edv); apply Forall_fmap, Forall_forall;
      intros r Hr; by apply Hm1. }
  split; [apply Hc2; right; apply Hc1; by right|].
  split; [apply Hc2; right; apply Hc1; by right|].
  split; [apply Hc2; right; apply Hc1; by left|].
  split; [apply Hc2; by left|].
  apply Forall_forall. intros r Hr. apply Hrows in Hr.
  rewrite Hr2 in Hr.
  apply zip_with_insert_elem in Hr as (r1 & y & Hr1' & Hy & ->).
  rewrite Hr1 in Hr1'.
  apply zip_with_insert_elem in Hr1' as (r0 & x & _ & Hx & ->).
  unfold cell_at. rewrite lookup_insert_ne by done.
  rewrite !lookup_insert_eq. simpl. split.
  - by apply (proj1 (Forall_forall _ _) Hdq).
  - by apply (proj1 (Forall_forall _ _) Hdv).
Qed.

Lemma adjustments_value_None_shape dc adj :
  adjustments_value dc None = inr adj →
  "quantity_change" ∈ columns adj ∧ "value_change" ∈ columns adj.
Proof.
  unfold adjustments_value.
  destruct (df_getitem dc "quantity") as [e|q]; [done|]. rewrite result_bind_ok.
  destruct (df_setitem dc "quantity_change" q) as [e|a1] eqn:E1; [done|].
  rewrite result_bind_ok.
  destruct (df_getitem a1 "value") as [e|v]; [done|]. rewrite result_bind_ok.
  intros E2.
  apply setitem_ok in E1 as (_ & Hc1 & _), E2 as (_ & Hc2 & _).
  split; apply Hc2; [right; apply Hc1|]; by left.
Qed.

(** With both change columns the loop body raises nothing but TypeError,
    and nothing at all on numbers. *)
Lemma journal_row_raises d cols row e :
  "quantity_change" ∈ cols → "value_change" ∈ cols →
  journal_row d cols [] row = inl e → e = TypeError.
Proof.
  intros Hq Hv. unfold journal_row, row_getitem.
  rewrite (decide_True _ _ Hq), (decide_True _ _ Hv). simpl.
  destruct (cell_at row "quantity_change") as [s|q|]; simpl;
    [by intros E; inversion E| |done].
  destruct (cell_at row "value_change") as [s|v|];
    destruct (0 <? q)%Z, (q <? 0)%Z; simpl; intros E; by inversion E.
Qed.

Lemma journal_row_returns d cols row :
  "quantity_change" ∈ cols → "value_change" ∈ cols →
  is_num (cell_at row "quantity_change") → is_num (cell_at row "value_change") →
  ∃ es, journal_row d cols [] row = inr es.
Proof.
  intros Hq Hv [q Eq] [v Ev]. unfold journal_row, row_getitem.
  rewrite (decide_True _ _ Hq), (decide_True _ _ Hv), Eq, Ev. simpl.
  destruct (0 <? q)%Z, (q <? 0)%Z; simpl; eauto.
Qed.

Lemma journal_entries_raises d cols rs e :
  "quantity_change" ∈ cols → "value_change" ∈ cols →
  journal_entries d (mkFrame cols rs) = inl e → e = TypeError.
Proof.
  intros Hq Hv. induction rs as [|row rs IH]; [done|].
  rewrite journal_entries_cons.
  destruct (journal_row d cols [] row) as [e1|es1] eqn:E1; simpl.
  - intros E; inversion E; subst. by eapply journal_row_raises.
  - destruct (journal_entries d (mkFrame cols rs)) as [e2|es2]; simpl; [|done].
    intros E; inversion E; subst. by apply IH.
Qed.

Lemma journal_entries_returns d cols rs :
  "quantity_change" ∈ cols → "value_change" ∈ cols →
  Forall (λ r, is_num (cell_at r "quantity_change") ∧
               is_num (cell_at r "value_change")) rs →
  ∃ es, journal_entries d (mkFrame cols rs) = inr es.
Proof.
  intros Hq Hv Hrs. induction Hrs as [|row rs [Hrq Hrv] _ [es IH]]; [by exists []|].
  rewrite journal_entries_cons, IH.
  destruct (journal_row_returns d cols row Hq Hv Hrq Hrv) as [es1 ->].
  simpl. eauto.
Qed.

(** X5. The entry builder accepts what the reconciler returns.  On the
    frame returned by any successful call of [calculate_adjustments] it
    never raises KeyError: the two change columns are there.  When a
    previous snapshot was given it raises nothing at all, and the frame
    has the columns [security_id] and [account], so that no entry is
    labelled through [security_id_current] or as UNKNOWN. *)
Theorem X5_builder_accepts_reconciler_output h cur prev l' h' today d :
  calculate_adjustments cur prev h = inr (l', h') →
  ∃ adj, h' !! l' = Some adj ∧
    "quantity_change" ∈ columns adj ∧ "value_change" ∈ columns adj ∧
    (∀ k, generate_journal_entries today l' d h' ≠ inl (KeyError k)) ∧
    (is_Some prev →
       "security_id" ∈ columns adj ∧ "account" ∈ columns adj ∧
       ∃ es, generate_journal_entries today l' d h' = inr (es, h')).
Proof.
  intros Hcall.
  destruct (calculate_adjustments_returns _ _ _ _ _ Hcall)
    as (dc & odp & adj & Hcur & Hprev & Eadj & Hl').
  exists adj. split; [done|].
  rewrite (generate_run _ _ _ _ _ Hl').
  destruct adj as [cols rs]. cbn [columns].
  assert ("quantity_change" ∈ cols ∧ "value_change" ∈ cols) as [Hq Hv].
  { destruct odp as [dp|].
    - by destruct (adjustments_value_Some_shape _ _ _ Eadj) as (_ & _ & ? & ? & _).
    - by apply (adjustments_value_None_shape _ _ Eadj). }
  split; [done|]. split; [done|]. split.
  - intros k.
    destruct (journal_entries _ _) as [e|es] eqn:E; [|done].
    by rewrite (journal_entries_raises _ _ _ _ Hq Hv E).
  - intros [p ->]. destruct odp as [dp|]; [|done].
    destruct (adjustments_value_Some_shape _ _ _ Eadj) as (Hs & Ha & _ & _ & Hnum).
    split; [done|]. split; [done|].
    destruct (journal_entries_returns (default today d) cols rs Hq Hv Hnum) as [es ->].
    by exists es.
Qed.

(** *** Snapshots through both steps *)

Lemma change_row_is_change pr : is_change (change_row pr) (change_of_pair pr).
Proof.
  destruct (change_row_lookups pr) as (H1 & H2 & _ & _ & _ & _ & H7 & H8).
  by repeat split.
Qed.


(** The entries of two snapshots, as a list over the pairs of the join. *)
Lemma reconcile_and_build_snapshots h cur prev (C P : list PositionRecord) today d :
  h !! cur = Some (snapshot_frame C) →
  h !! prev = Some (snapshot_frame P) →
  NoDup (pos_key <$> P) →
  ∃ h', reconcile_and_build today cur (Some prev) d h
        = inr (entry_of (default today d) ∘ change_of_pair
                 <$> filter (λ pr, quantity_delta pr ≠ 0%Z) (outer_join C P), h') ∧
        h ⊆ h'.
Proof.
  intros Hcur Hprev HP.
  destruct (calculate_adjustments_snapshots h cur prev C P Hcur Hprev HP)
    as (l' & h' & Hcall & Hl' & _ & Hsub).
  exists h'. split; [|done].
  unfold reconcile_and_build. rewrite bind_run, Hcall.
  rewrite (generate_run _ _ _ _ _ Hl').
  set (kept := filter (λ pr, quantity_delta pr ≠ 0%Z ∨ value_delta pr ≠ 0%Z)
                      (outer_join C P)).
  rewrite (journal_entries_changes _ _ (change_of_pair <$> kept)).
  2:{ split; [repeat split; compute_done|]. cbn [rows].
      apply Forall2_fmap, Forall_Forall2_diag, Forall_forall.
      intros pr _. apply change_row_is_change. }
  rewrite entries_of_filter.
  rewrite (filter_fmap_iff change_of_pair _ (λ pr, quantity_delta pr ≠ 0%Z)) by done.
  rewrite <- list_fmap_compose.
  unfold kept. rewrite list_filter_filter.
  rewrite (list_filter_iff _ (λ pr, quantity_delta pr ≠ 0%Z)) by (intros pr; tauto).
  reflexivity.
Qed.




Lemma adjustments_value_snapshot_None (S : list PositionRecord) :
  adjustments_value (snapshot_frame S) None
  = inr {| columns := snap_cols ++ ["quantity_change"; "value_change"];
           rows := (λ p, <["value_change" := Num (pos_value p)]>
                           (<["quantity_change" := Num (pos_quantity p)]>
                              (position_row p))) <$> S |}.
Proof.
  unfold adjustments_value.
  change (df_getitem (snapshot_frame S) "quantity" ≫= _)
    with ((df_getitem (snapshot_frame S) "quantity"
           ≫= df_setitem (snapshot_frame S) "quantity_change")
          ≫= λ a1, df_getitem a1 "value" ≫= df_setitem a1 "value_change").
  rewrite setitem_of_getitem by compute_done. rewrite result_bind_ok.
  rewrite setitem_of_getitem by compute_done.
  cbn [columns rows snapshot_frame].
  f_equal. f_equal. rewrite <- !list_fmap_compose.
  apply list_fmap_ext. intros i p _. reflexivity.
Qed.

Lemma position_change_row p :
  is_change (<["value_change" := Num (pos_value p)]>
               (<["quantity_change" := Num (pos_quantity p)]> (position_row p)))
            (change_of_position p).
Proof. destruct p as [s a q v]. unfold is_change. repeat split. Qed.

(** X7. One snapshot and no previous one, through both steps: every
    position is taken as new.  The entries are, in the order of the
    snapshot, one for every position whose quantity is not zero: a borrow
    entry for a positive quantity, a return entry for a negative one, with
    the absolute quantity and value of the position.  The snapshot itself
    is not changed. *)
Theorem X7_entries_of_one_snapshot h cur (S : list PositionRecord) today d :
  h !! cur = Some (snapshot_frame S) →
  ∃ h', reconcile_and_build today cur None d h
        = inr (entry_of (default today d) ∘ change_of_position
                 <$> filter (λ p, pos_quantity p ≠ 0%Z) S, h') ∧
        h ⊆ h'.
Proof.
  intros Hcur.
  pose proof (calculate_adjustments_run h cur None _ None Hcur I) as R.
  rewrite adjustments_value_snapshot_None in R.
  destruct R as (l' & h' & Hcall & Hl' & _ & Hsub).
  exists h'. split; [|done].
  unfold reconcile_and_build. rewrite bind_run, Hcall.
  rewrite (generate_run _ _ _ _ _ Hl').
  rewrite (journal_entries_changes _ _ (change_of_position <$> S)).
  2:{ split; [repeat split; compute_done|]. cbn [rows].
      apply Forall2_fmap, Forall_Forall2_diag, Forall_forall.
      intros p _. apply position_change_row. }
  rewrite entries_of_filter.
  rewrite (filter_fmap_iff change_of_position _ (λ p, pos_quantity p ≠ 0%Z)) by done.
  by rewrite <- list_fmap_compose.
Qed.

Lemma filter_none {A} (Q : A → Prop) `{∀ x, Decision (Q x)} (l : list A) :
  (∀ x, x ∈ l → ¬ Q x) → filter Q l = [].
Proof.
  induction l as [|x l IH]; [done|]. intros Hl.
  rewrite filter_cons_False by (apply Hl; by left).
  apply IH. intros y Hy. apply Hl. by right.
Qed.

(** X8. A snapshot reconciled with a snapshot of the same content gives a
    frame without rows, and no entry. *)
Theorem X8_same_snapshot_no_adjustment h cur prev (S : list PositionRecord) today d :
  h !! cur = Some (snapshot_frame S) →
  h !! prev = Some (snapshot_frame S) →
  NoDup (pos_key <$> S) →
  (∃ l' h' adj, calculate_adjustments cur (Some prev) h = inr (l', h') ∧
                h' !! l' = Some adj ∧ rows adj = []) ∧
  (∃ h', reconcile_and_build today cur (Some prev) d h = inr ([], h')).
Proof.
  intros Hcur Hprev HS.
  assert (∀ pr, pr ∈ outer_join S S → quantity_delta pr = 0%Z ∧ value_delta pr = 0%Z)
    as Hzero.
  { intros pr Hpr. destruct (outer_join_pair S S pr HS HS Hpr) as [_ ->].
    unfold quantity_delta, value_delta. simpl. lia. }
  split.
  - destruct (calculate_adjustments_snapshots h cur prev S S Hcur Hprev HS)
      as (l' & h' & Hcall & Hl' & _ & _).
    eexists l', h', _. split; [exact Hcall|]. split; [exact Hl'|]. cbn [rows].
    rewrite filter_none; [done|].
    intros pr Hpr. destruct (Hzero pr Hpr) as [-> ->]. intros [?|?]; done.
  - destruct (reconcile_and_build_snapshots h cur prev S S today d Hcur Hprev HS)
      as (h' & Hrun & _).
    exists h'. rewrite Hrun. rewrite filter_none; [done|].
    intros pr Hpr Hq. apply Hq. by destruct (Hzero pr Hpr).
Qed.


(* ===================================================================== *)
(** ** Further properties of the PDF merger *)
(* ===================================================================== *)

Lemma merged_pages_cons d f (rest : list string) :
  merged_pages d (f :: rest)
  = if decide (lower (path_suffix f) = ".pdf")
    then pages_of d f ++ merged_pages d rest
    else merged_pages d rest.
Proof.
  unfold merged_pages, pdf_inputs. rewrite filter_cons. by case_decide.
Qed.

Lemma elem_of_pdf_inputs p (pdf_files : list string) :
  p ∈ pdf_inputs pdf_files ↔ lower (path_suffix p) = ".pdf" ∧ p ∈ pdf_files.
Proof. unfold pdf_inputs. by rewrite list_elem_of_filter. Qed.

(** The loop ends normally exactly when every path exists and every path
    with the suffix .pdf holds a PDF document; the merger then holds the
    pages of these documents in the order of the list. *)
Lemma add_files_ends d merger (pdf_files : list string) :
  (∀ p, p ∈ pdf_files → is_Some (files d !! p)) →
  (∀ p, p ∈ pdf_inputs pdf_files → ∃ pages, files d !! p = Some (Pdf pages)) →
  add_files d merger pdf_files = inr (Some (merger ++ merged_pages d pdf_files)).
Proof.
  revert merger. induction pdf_files as [|f rest IH]; intros merger Hex Hpdf.
  - simpl. unfold merged_pages. simpl. by rewrite app_nil_r.
  - assert (∀ p, p ∈ rest → is_Some (files d !! p)) as Hex'
      by (intros p Hp; apply Hex; by right).
    assert (∀ p, p ∈ pdf_inputs rest → ∃ pages, files d !! p = Some (Pdf pages))
      as Hpdf'.
    { intros p Hp. apply Hpdf. apply elem_of_pdf_inputs in Hp as [? ?].
      apply elem_of_pdf_inputs. split; [done|by right]. }
    simpl. unfold path_exists.
    rewrite bool_decide_eq_true_2 by (apply Hex; by left). simpl.
    rewrite merged_pages_cons.
    destruct (String.eqb_spec (lower (path_suffix f)) ".pdf") as [Hs|Hs]; simpl.
    + rewrite decide_True by done.
      destruct (Hpdf f) as [pages Hf];
        [apply elem_of_pdf_inputs; split; [done|by left]|].
      unfold append, pages_of. rewrite Hf. simpl.
      rewrite (IH _ Hex' Hpdf'). by rewrite app_assoc.
    + rewrite decide_False by done. by apply IH.
Qed.

Lemma add_files_inv d merger (pdf_files : list string) merger' :
  add_files d merger pdf_files = inr (Some merger') →
  (∀ p, p ∈ pdf_files → is_Some (files d !! p)) ∧
  (∀ p, p ∈ pdf_inputs pdf_files → ∃ pages, files d !! p = Some (Pdf pages)).
Proof.
  revert merger. induction pdf_files as [|f rest IH]; intros merger.
  - intros _. split; intros p Hp; [by apply elem_of_nil in Hp|].
    apply elem_of_pdf_inputs in Hp as [_ Hp]. by apply elem_of_nil in Hp.
  - simpl. unfold path_exists.
    destruct (decide (is_Some (files d !! f))) as [Hf|Hf].
    2:{ by rewrite bool_decide_eq_false_2. }
    rewrite bool_decide_eq_true_2 by done. simpl.
    destruct (String.eqb_spec (lower (path_suffix f)) ".pdf") as [Hs|Hs]; simpl.
    + unfold append. destruct (files d !! f) as [[pages|]|] eqn:Ef; simpl; [|done..].
      intros H. destruct (IH _ H) as [Hex Hpdf]. split.
      * intros p [->|Hp]%elem_of_cons; [by rewrite Ef|by apply Hex].
      * intros p [Hp [->|Hin]%elem_of_cons]%elem_of_pdf_inputs; [by exists pages|].
        apply Hpdf. by apply elem_of_pdf_inputs.
    + intros H. destruct (IH _ H) as [Hex Hpdf]. split.
      * intros p [->|Hp]%elem_of_cons; [done|by apply Hex].
      * intros p [Hp [->|Hin]%elem_of_cons]%elem_of_pdf_inputs; [done|].
        apply Hpdf. by apply elem_of_pdf_inputs.
Qed.

(** X10. When [merge_pdfs] succeeds.  For an output path that is not one
    of the inputs, it returns [True] exactly when every input path
    exists, every input path with the suffix .pdf (in any letter case)
    holds a PDF document, and the output path can be written.  An input
    without that suffix has to exist, but what it holds is not looked
    at. *)
Theorem X10_merge_succeeds_iff d (pdf_files : list string) output_file :
  output_file ∉ pdf_files →
  (merge_pdfs d pdf_files output_file).1 = true ↔
  (∀ p, p ∈ pdf_files → is_Some (files d !! p)) ∧
  (∀ p, p ∈ pdf_files → lower (path_suffix p) = ".pdf" →
        ∃ pages, files d !! p = Some (Pdf pages)) ∧
  output_file ∉ unwritable d.
Proof.
  intros _. unfold merge_pdfs. split.
  - destruct (add_files d [] pdf_files) as [e|[merger|]] eqn:E; simpl; [done| |done].
    destruct (add_files_inv _ _ _ _ E) as [Hex Hpdf].
    unfold write. case_decide as Hw; simpl; [done|]. intros _.
    split; [done|]. split; [|done].
    intros p Hp Hs. apply Hpdf. by apply elem_of_pdf_inputs.
  - intros (Hex & Hpdf & Hw).
    rewrite add_files_ends; [|done|].
    + simpl. unfold write. by rewrite decide_False.
    + intros p Hp. apply elem_of_pdf_inputs in Hp as [Hs Hp]. by apply Hpdf.
Qed.

(** X11. What a successful merge writes.  For an output path that is not
    one of the inputs, after [merge_pdfs] has returned [True] the output
    path holds the pages of the inputs with the suffix .pdf, document
    after document in the order of the argument list, and every other
    path of the disk is as before. *)
Theorem X11_merge_writes_pages_in_order d (pdf_files : list string) output_file d' :
  output_file ∉ pdf_files →
  merge_pdfs d pdf_files output_file = (true, d') →
  files d' !! output_file = Some (Pdf (merged_pages d pdf_files)) ∧
  (∀ p, p ≠ output_file → files d' !! p = files d !! p) ∧
  unwritable d' = unwritable d.
Proof.
  intros _. unfold merge_pdfs.
  destruct (add_files d [] pdf_files) as [e|[merger|]] eqn:E; simpl; [done| |done].
  destruct (add_files_inv _ _ _ _ E) as [Hex Hpdf].
  rewrite (add_files_ends d [] pdf_files Hex Hpdf) in E. simpl in E.
  inversion E; subst; clear E.
  unfold write. case_decide; simpl; [done|].
  intros E; inversion E; subst; clear E. cbn [files unwritable].
  split; [apply lookup_insert_eq|]. split; [|done].
  intros p Hp. by rewrite lookup_insert_ne.
Qed.

Lemma merge_pdfs_false d (pdf_files : list string) output_file d' :
  merge_pdfs d pdf_files output_file = (false, d') → d' = d.
Proof.
  unfold merge_pdfs.
  destruct (add_files d [] pdf_files) as [e|[merger|]]; simpl;
    [by intros E; inversion E| |by intros E; inversion E].
  unfold write. case_decide; simpl; intros E; by inversion E.
Qed.

(* ===================================================================== *)
(** ** Strings and path suffixes *)
(* ===================================================================== *)

Lemma app_cons a s t : String a s +:+ t = String a (s +:+ t).
Proof. reflexivity. Qed.

Lemma app_empty_l t : "" +:+ t = t.
Proof. reflexivity. Qed.

Lemma app_empty_r s : s +:+ "" = s.
Proof. induction s as [|a s IH]; [done|]. by rewrite app_cons, IH. Qed.

Lemma string_app_assoc s t u : (s +:+ t) +:+ u = s +:+ (t +:+ u).
Proof. induction s as [|a s IH]; [done|]. by rewrite !app_cons, IH. Qed.

Lemma length_string_app s t :
  String.length (s +:+ t) = String.length s + String.length t.
Proof. induction s as [|a s IH]; [done|]. rewrite app_cons. simpl. by rewrite IH. Qed.

Lemma substring_all t : String.substring 0 (String.length t) t = t.
Proof. induction t as [|a t IH]; [done|]. simpl. by rewrite IH. Qed.

Lemma substring_app_r s t :
  String.substring (String.length s) (String.length t) (s +:+ t) = t.
Proof.
  induction s as [|a s IH]; [apply substring_all|]. rewrite app_cons. simpl. apply IH.
Qed.

Lemma lower_app s t : lower (s +:+ t) = lower s +:+ lower t.
Proof. induction s as [|a s IH]; [done|]. rewrite app_cons. simpl. by rewrite IH. Qed.

Lemma ends_with_app s t : ends_with (s +:+ t) t = true.
Proof.
  unfold ends_with. rewrite length_string_app.
  replace (String.length s + String.length t - String.length t)
    with (String.length s) by lia.
  rewrite substring_app_r, String.eqb_refl.
  rewrite andb_true_r. apply Nat.leb_le. lia.
Qed.

(** *** The components of a path *)

Lemma split_slash_no_slash cur s :
  has_char "/" s = false → split_slash cur s = [cur +:+ s].
Proof.
  revert cur. induction s as [|a s IH]; intros cur; simpl.
  - by rewrite app_empty_r.
  - destruct (Ascii.eqb a "/") eqn:Ea; simpl; [done|].
    intros Hs. rewrite (IH _ Hs). by rewrite string_app_assoc.
Qed.

Lemma split_slash_app cur a :
  ∃ init lst, split_slash cur a = init ++ [lst] ∧
              ∀ b, split_slash cur (a +:+ b) = init ++ split_slash lst b.
Proof.
  revert cur. induction a as [|c a IH]; intros cur.
  - exists [], cur. split; [done|]. intros b. by rewrite app_empty_l.
  - destruct (Ascii.eqb c "/") eqn:Ec.
    + destruct (IH EmptyString) as (init & lst & E & Hb).
      exists (cur :: init), lst. split; [simpl; by rewrite Ec, E|].
      intros b. rewrite app_cons. simpl. by rewrite Ec, Hb.
    + destruct (IH (cur +:+ String c EmptyString)) as (init & lst & E & Hb).
      exists init, lst. split; [simpl; by rewrite Ec|].
      intros b. rewrite app_cons. simpl. by rewrite Ec, Hb.
Qed.

(** The final component of [dir +:+ name] is [name]. *)
Lemma path_name_in_dir dir name :
  (dir = "" ∨ ∃ dir0, dir = dir0 +:+ "/") →
  has_char "/" name = false → name ≠ "" → name ≠ "." →
  path_name (dir +:+ name) = name.
Proof.
  intros Hdir Hname Hne Hdot.
  assert (∃ xs, split_slash EmptyString (dir +:+ name) = xs ++ [name]) as [xs E].
  { destruct Hdir as [->|[dir0 ->]].
    - exists []. rewrite app_empty_l. by rewrite (split_slash_no_slash _ _ Hname).
    - destruct (split_slash_app EmptyString dir0) as (init & lst & _ & Hb).
      exists (init ++ [lst]). rewrite string_app_assoc, Hb.
      change ("/" +:+ name) with (String "/" name). simpl.
      rewrite (split_slash_no_slash _ _ Hname), app_empty_l.
      by rewrite <- app_assoc. }
  unfold path_name. rewrite E, List.filter_app. simpl.
  destruct (String.eqb_spec name "") as [?|_]; [done|].
  destruct (String.eqb_spec name ".") as [?|_]; [done|].
  simpl. apply List.last_last.
Qed.

(** *** The last dot *)

Lemma rfind_dot_no_dot i s found :
  has_char "." s = false → rfind_dot i s found = found.
Proof.
  revert i found. induction s as [|a s IH]; intros i found; simpl; [done|].
  destruct (Ascii.eqb a ".") eqn:Ea; simpl; [done|]. apply IH.
Qed.

Lemma rfind_dot_last i s ext found :
  has_char "." ext = false →
  rfind_dot i (s +:+ "." +:+ ext) found = Some (i + String.length s).
Proof.
  intros Hext. revert i found. induction s as [|a s IH]; intros i found.
  - rewrite app_empty_l. change ("." +:+ ext) with (String "." ext). simpl.
    rewrite (rfind_dot_no_dot _ _ _ Hext). f_equal. lia.
  - rewrite app_cons. simpl. rewrite IH. f_equal. lia.
Qed.

Lemma has_char_app c s t : has_char c (s +:+ t) = has_char c s || has_char c t.
Proof.
  induction s as [|a s IH]; [done|]. rewrite app_cons. simpl.
  by rewrite IH, orb_assoc.
Qed.

(** The suffix of [stem.ext] is [.ext], in any directory and whatever
    dots the stem has. *)
Lemma path_suffix_of_parts dir stem ext :
  file_name_parts dir stem ext →
  path_suffix (dir +:+ stem +:+ "." +:+ ext) = "." +:+ ext.
Proof.
  intros (Hdir & Hstem & Hstem_slash & Hext & Hext_slash & Hext_dot).
  set (name := stem +:+ "." +:+ ext).
  assert (String.length name = String.length stem + S (String.length ext)) as Hlen.
  { unfold name. rewrite !length_string_app. simpl. lia. }
  assert (0 < String.length stem) as Hs by (destruct stem; [done|simpl; lia]).
  assert (0 < String.length ext) as He by (destruct ext; [done|simpl; lia]).
  unfold path_suffix. rewrite (path_name_in_dir dir name Hdir).
  - unfold name at 1. rewrite (rfind_dot_last 0 stem ext None Hext_dot). simpl plus.
    rewrite (proj2 (Nat.ltb_lt 0 (String.length stem)) Hs).
    rewrite (proj2 (Nat.ltb_lt (String.length stem) (String.length name - 1)))
      by lia.
    simpl andb. cbv iota.
    replace (String.length name - String.length stem)
      with (String.length ("." +:+ ext))
      by (rewrite length_string_app; simpl; lia).
    apply substring_app_r.
  - unfold name. rewrite !has_char_app, Hstem_slash, Hext_slash. reflexivity.
  - intros E. rewrite E in Hlen. simpl in Hlen. lia.
  - intros E. rewrite E in Hlen. simpl in Hlen. lia.
Qed.

(* ===================================================================== *)
(** ** Further properties of the loader *)
(* ===================================================================== *)

Lemma lower_dot_ext ext : lower ("." +:+ ext) = "." +:+ lower ext.
Proof. by rewrite lower_app. Qed.

Lemma dot_ext_eq s t : "." +:+ s = "." +:+ t ↔ s = t.
Proof. split; [apply (inj (String.app "."))|by intros ->]. Qed.

(** X12. The loader chooses by the extension of the file name alone.  For
    a file [stem.ext] in any directory, whatever dots the stem has: when
    the extension is csv, xlsx or xls in any letter case the table at the
    path is returned as a new object, or FileNotFoundError is raised when
    there is none; for any other extension ValueError is raised, with the
    suffix as it was written in the message, whether the file exists or
    not. *)
Theorem X12_loader_chooses_by_extension fs dir stem ext h :
  file_name_parts dir stem ext →
  (lower ext ∈ ["csv"; "xlsx"; "xls"] →
   load_position_data fs (dir +:+ stem +:+ "." +:+ ext) h
   = match fs !! (dir +:+ stem +:+ "." +:+ ext) with
     | Some df => inr (fresh (dom h), <[fresh (dom h) := df]> h)
     | None => inl (FileNotFoundError (dir +:+ stem +:+ "." +:+ ext))
     end) ∧
  (lower ext ∉ ["csv"; "xlsx"; "xls"] →
   load_position_data fs (dir +:+ stem +:+ "." +:+ ext) h
   = inl (ValueError ("Unsupported file format: ." +:+ ext))).
Proof.
  intros Hparts. unfold load_position_data.
  rewrite (path_suffix_of_parts _ _ _ Hparts), lower_dot_ext.
  assert (∀ fs p h, read_table fs p h
                    = match fs !! p with
                      | Some df => inr (fresh (dom h), <[fresh (dom h) := df]> h)
                      | None => inl (FileNotFoundError p)
                      end) as Hread.
  { intros fs' p h'. unfold read_table. by destruct (fs' !! p). }
  split.
  - intros Hext. case_decide; [apply Hread|].
    rewrite decide_True; [apply Hread|].
    apply elem_of_cons in Hext as [E|Hext]; [by rewrite E in *|].
    apply elem_of_cons in Hext as [->|Hext]; [by left|].
    apply list_elem_of_singleton in Hext as ->. right. by left.
  - intros Hext.
    rewrite decide_False.
    2:{ intros E. apply Hext.
        change ".csv" with ("." +:+ "csv") in E. apply (proj1 (dot_ext_eq _ _)) in E.
        rewrite E. by left. }
    rewrite decide_False; [done|].
    intros Hin. apply Hext.
    apply elem_of_cons in Hin as [E|Hin].
    + change ".xlsx" with ("." +:+ "xlsx") in E. apply (proj1 (dot_ext_eq _ _)) in E.
      rewrite E. right. by left.
    + apply list_elem_of_singleton in Hin.
      change ".xls" with ("." +:+ "xls") in Hin. apply (proj1 (dot_ext_eq _ _)) in Hin.
      rewrite Hin. right. right. by left.
Qed.

Lemma path_suffix_no_dot dir name :
  (dir = "" ∨ ∃ dir0, dir = dir0 +:+ "/") →
  has_char "/" name = false → name ≠ "" → has_char "." name = false →
  path_suffix (dir +:+ name) = "".
Proof.
  intros Hdir Hslash Hne Hdot. unfold path_suffix.
  rewrite (path_name_in_dir dir name Hdir Hslash Hne); [|by intros ->].
  by rewrite (rfind_dot_no_dot _ _ _ Hdot).
Qed.

Lemma path_suffix_leading_dot dir ext :
  (dir = "" ∨ ∃ dir0, dir = dir0 +:+ "/") →
  has_char "/" ext = false → ext ≠ "" → has_char "." ext = false →
  path_suffix (dir +:+ "." +:+ ext) = "".
Proof.
  intros Hdir Hslash Hne Hdot. unfold path_suffix.
  rewrite (path_name_in_dir dir ("." +:+ ext) Hdir).
  - change ("." +:+ ext) with ("" +:+ "." +:+ ext) at 1.
    rewrite (rfind_dot_last 0 "" ext None Hdot). reflexivity.
  - exact Hslash.
  - done.
  - intros E. by apply (proj1 (dot_ext_eq ext "")) in E.
Qed.

(** X13. File names that have no suffix are refused, whatever they hold.
    A name without a dot, and a name whose only dot is its first
    character, such as [.csv], have the empty suffix: the loader raises
    ValueError with an empty suffix in the message, also when the file
    exists. *)
Theorem X13_loader_refuses_names_without_suffix fs dir name h :
  (dir = "" ∨ ∃ dir0, dir = dir0 +:+ "/") →
  has_char "/" name = false →
  name ≠ "" →
  has_char "." name = false →
  load_position_data fs (dir +:+ name) h
  = inl (ValueError "Unsupported file format: ") ∧
  load_position_data fs (dir +:+ "." +:+ name) h
  = inl (ValueError "Unsupported file format: ").
Proof.
  intros Hdir Hslash Hne Hdot. unfold load_position_data.
  rewrite (path_suffix_no_dot _ _ Hdir Hslash Hne Hdot).
  rewrite (path_suffix_leading_dot _ _ Hdir Hslash Hne Hdot).
  split; reflexivity.
Qed.

(* ===================================================================== *)
(** ** The command line of the PDF merger *)
(* ===================================================================== *)

(** X14. The command line of the merger.  With fewer than three
    arguments nothing is done and the exit status is 1.  Otherwise the
    inputs are merged into the output name, which is kept when it ends
    with .pdf in any letter case and gets .pdf added when it does not, so
    that the name written always ends with .pdf; the exit status is 0 when
    the merge succeeded, and 1 with the disk as before when it failed. *)
Theorem X14_merger_command_line argv d status d' :
  PdfMain.main argv d = (status, d') →
  (length argv < 3 → status = 1 ∧ d' = d) ∧
  (status ≠ 0 → status = 1 ∧ d' = d) ∧
  (status = 0 →
   ∃ prog out inputs out',
     argv = prog :: out :: inputs ∧ inputs ≠ [] ∧
     (ends_with (lower out) ".pdf" = true → out' = out) ∧
     (ends_with (lower out) ".pdf" = false → out' = out +:+ ".pdf") ∧
     ends_with (lower out') ".pdf" = true ∧
     merge_pdfs d inputs out' = (true, d')).
Proof.
  unfold PdfMain.main.
  destruct argv as [|prog [|out [|input1 inputs]]];
    try (intros E; inversion E; subst; simpl;
         split; [done|]; split; [done|]; intros; lia).
  set (out' := if negb (ends_with (lower out) ".pdf") then out +:+ ".pdf" else out).
  assert (ends_with (lower out') ".pdf" = true) as Hout'.
  { unfold out'. destruct (ends_with (lower out) ".pdf") eqn:E; simpl; [done|].
    rewrite lower_app. apply ends_with_app. }
  destruct (merge_pdfs d (input1 :: inputs) out') as [success d1] eqn:Em.
  intros E. inversion E; subst; clear E.
  split; [simpl; lia|]. destruct success.
  - split; [done|]. intros _.
    exists prog, out, (input1 :: inputs), out'.
    split; [done|]. split; [done|].
    split; [|split; [|done]]; unfold out'; intros ->; done.
  - split; [|done]. intros _. split; [done|].
    by apply (merge_pdfs_false d (input1 :: inputs) out').
Qed.

(* ===================================================================== *)
(** ** Cells that are not numbers *)
(* ===================================================================== *)

(** X15. A change cell that holds a string stops the entry builder with
    TypeError, and the entries of the rows before it are lost with it.
    This happens for a string in [quantity_change], and for a string in
    [value_change] when the quantity change of the row is a number other
    than zero; the value change of a row whose quantity change is zero is
    never looked at. *)
Theorem X15_string_cell_raises_TypeError
    today h adj d cols rows1 row rows2 es1 s :
  h !! adj = Some (mkFrame cols (rows1 ++ row :: rows2)) →
  "quantity_change" ∈ cols →
  "value_change" ∈ cols →
  journal_entries (default today d) (mkFrame cols rows1) = inr es1 →
  (cell_at row "quantity_change" = Str s →
   generate_journal_entries today adj d h = inl TypeError) ∧
  (∀ q, cell_at row "quantity_change" = Num q → q ≠ 0%Z →
        cell_at row "value_change" = Str s →
        generate_journal_entries today adj d h = inl TypeError).
Proof.
  intros Hadj Hq Hv H1.
  rewrite (generate_run _ _ _ _ _ Hadj).
  rewrite journal_entries_app, H1, result_bind_ok, journal_entries_cons.
  unfold journal_row at 1 2, row_getitem.
  rewrite (decide_True _ _ Hq), (decide_True _ _ Hv).
  split.
  - intros ->. reflexivity.
  - intros q -> Hnz ->. simpl.
    destruct (Z.ltb_spec 0 q); simpl; [done|].
    destruct (Z.ltb_spec q 0); simpl; [done|lia].
Qed.

(* ===================================================================== *)
(** ** Snapshots with repeated keys *)
(* ===================================================================== *)





(* ===================================================================== *)
(** ** The further properties on the sample data *)
(* ===================================================================== *)

Lemma X1_witness :
  generate_journal_entries "2026-11-03" 5%positive None journal_store
  = inl (KeyError "quantity_change") ∧
  generate_journal_entries "2026-11-03" 2%positive None journal_store
  = inl (KeyError "value_change").
Proof.
  split.
  - apply (proj1 (X1_builder_needs_both_change_columns "2026-11-03" journal_store
                    5%positive None headless_frame eq_refl ltac:(done))).
    compute_done.
  - apply (proj2 (X1_builder_needs_both_change_columns "2026-11-03" journal_store
                    2%positive None no_value_change_frame eq_refl ltac:(done)));
      compute_done.
Defined.




Lemma X5_witness :
  match calculate_adjustments 1%positive (Some 2%positive) sample_store with
  | inl _ => False
  | inr (l', h') =>
      ∃ adj, h' !! l' = Some adj ∧
        "quantity_change" ∈ columns adj ∧ "value_change" ∈ columns adj ∧
        (∀ k, generate_journal_entries "2026-11-03" l' None h' ≠ inl (KeyError k)) ∧
        (is_Some (Some 2%positive) →
           "security_id" ∈ columns adj ∧ "account" ∈ columns adj ∧
           ∃ es, generate_journal_entries "2026-11-03" l' None h' = inr (es, h'))
  end.
Proof.
  destruct (calculate_adjustments 1%positive (Some 2%positive) sample_store)
    as [e|[l' h']] eqn:E.
  - vm_compute in E. discriminate E.
  - exact (X5_builder_accepts_reconciler_output sample_store 1%positive
             (Some 2%positive) l' h' "2026-11-03" None E).
Defined.


Lemma X7_witness :
  ∃ h', reconcile_and_build "2026-11-03" 1%positive None (Some "2026-01-31") sample_store
        = inr ([ mkEntry "2026-01-31" (Str "SEC1") (Str "ACC1")
                   "Securities Borrowed" "Payable for Securities"
                   (Num 100) (Num 1000) "Borrow securities SEC1";
                 mkEntry "2026-01-31" (Str "SEC2") (Str "ACC1")
                   "Securities Borrowed" "Payable for Securities"
                   (Num 5) (Num 7) "Borrow securities SEC2";
                 mkEntry "2026-01-31" (Str "SEC4") (Str "ACC2")
                   "Securities Borrowed" "Payable for Securities"
                   (Num 30) (Num 90) "Borrow securities SEC4" ], h') ∧
        sample_store ⊆ h'.
Proof.
  apply (X7_entries_of_one_snapshot sample_store 1%positive sample_current
           "2026-11-03" (Some "2026-01-31")).
  reflexivity.
Defined.

Lemma X8_witness :
  (∃ l' h' adj, calculate_adjustments 2%positive (Some 7%positive)
                  (<[7%positive := snapshot_frame sample_previous]> sample_store)
                = inr (l', h') ∧
                h' !! l' = Some adj ∧ rows adj = []) ∧
  (∃ h', reconcile_and_build "2026-11-03" 2%positive (Some 7%positive) None
           (<[7%positive := snapshot_frame sample_previous]> sample_store)
         = inr ([], h')).
Proof.
  apply (X8_same_snapshot_no_adjustment
           (<[7%positive := snapshot_frame sample_previous]> sample_store)
           2%positive 7%positive sample_previous "2026-11-03" None).
  - reflexivity.
  - reflexivity.
  - compute_done.
Defined.


Lemma X10_witness :
  (merge_pdfs office_disk ["a.pdf"; "notes.txt"; "b.PDF"] "merged.pdf").1 = true ↔
  (∀ p, p ∈ ["a.pdf"; "notes.txt"; "b.PDF"] → is_Some (files office_disk !! p)) ∧
  (∀ p, p ∈ ["a.pdf"; "notes.txt"; "b.PDF"] → lower (path_suffix p) = ".pdf" →
        ∃ pages, files office_disk !! p = Some (Pdf pages)) ∧
  "merged.pdf" ∉ unwritable office_disk.
Proof.
  apply (X10_merge_succeeds_iff office_disk ["a.pdf"; "notes.txt"; "b.PDF"]
           "merged.pdf").
  compute_done.
Defined.

Lemma X11_witness :
  files (office_disk_merged "merged.pdf") !! "merged.pdf"
  = Some (Pdf (merged_pages office_disk ["a.pdf"; "notes.txt"; "b.PDF"])) ∧
  (∀ p, p ≠ "merged.pdf" →
        files (office_disk_merged "merged.pdf") !! p = files office_disk !! p) ∧
  unwritable (office_disk_merged "merged.pdf") = unwritable office_disk.
Proof.
  apply (X11_merge_writes_pages_in_order office_disk
           ["a.pdf"; "notes.txt"; "b.PDF"] "merged.pdf").
  - compute_done.
  - reflexivity.
Defined.

Lemma sample_file_name_parts : file_name_parts "data/" "positions.2026" "CSV".
Proof.
  repeat split; try done. right. by exists "data".
Defined.

Lemma X12_witness :
  (lower "CSV" ∈ ["csv"; "xlsx"; "xls"] →
   load_position_data sample_files ("data/" +:+ "positions.2026" +:+ "." +:+ "CSV") ∅
   = match sample_files !! ("data/" +:+ "positions.2026" +:+ "." +:+ "CSV") with
     | Some df => inr (fresh (dom (∅ : gmap loc DataFrame)),
                       <[fresh (dom (∅ : gmap loc DataFrame)) := df]> ∅)
     | None => inl (FileNotFoundError
                      ("data/" +:+ "positions.2026" +:+ "." +:+ "CSV"))
     end) ∧
  (lower "CSV" ∉ ["csv"; "xlsx"; "xls"] →
   load_position_data sample_files ("data/" +:+ "positions.2026" +:+ "." +:+ "CSV") ∅
   = inl (ValueError ("Unsupported file format: ." +:+ "CSV"))).
Proof.
  apply (X12_loader_chooses_by_extension sample_files "data/" "positions.2026"
           "CSV" ∅).
  exact sample_file_name_parts.
Defined.

Lemma X13_witness :
  load_position_data sample_files ("" +:+ "csv") ∅
  = inl (ValueError "Unsupported file format: ") ∧
  load_position_data sample_files ("" +:+ "." +:+ "csv") ∅
  = inl (ValueError "Unsupported file format: ").
Proof.
  apply (X13_loader_refuses_names_without_suffix sample_files "" "csv" ∅).
  - by left.
  - reflexivity.
  - done.
  - reflexivity.
Defined.

Lemma X14_witness :
  (length ["pdf_merger.py"; "out"; "a.pdf"; "notes.txt"; "b.PDF"] < 3 →
   0 = 1 ∧ office_disk_merged "out.pdf" = office_disk) ∧
  (0 ≠ 0 → 0 = 1 ∧ office_disk_merged "out.pdf" = office_disk) ∧
  (0 = 0 →
   ∃ prog out inputs out',
     ["pdf_merger.py"; "out"; "a.pdf"; "notes.txt"; "b.PDF"] = prog :: out :: inputs ∧
     inputs ≠ [] ∧
     (ends_with (lower out) ".pdf" = true → out' = out) ∧
     (ends_with (lower out) ".pdf" = false → out' = out +:+ ".pdf") ∧
     ends_with (lower out') ".pdf" = true ∧
     merge_pdfs office_disk inputs out' = (true, office_disk_merged "out.pdf")).
Proof.
  apply (X14_merger_command_line
           ["pdf_merger.py"; "out"; "a.pdf"; "notes.txt"; "b.PDF"] office_disk).
  reflexivity.
Defined.

Lemma X15_witness :
  generate_journal_entries "2026-11-03" 6%positive None journal_store = inl TypeError.
Proof.
  refine (proj2 (X15_string_cell_raises_TypeError "2026-11-03" journal_store
                   6%positive None change_cols [borrow_row]
                   {[ "security_id" := Str "SEC2"; "account" := Str "ACC1";
                      "quantity_change" := Num 5; "value_change" := Str "n/a" ]}
                   []
                   [ mkEntry "2026-11-03" (Str "SEC1") (Str "ACC1")
                       "Securities Borrowed" "Payable for Securities"
                       (Num 50) (Num 600) "Borrow securities SEC1" ]
                   "n/a" _ _ _ _) 5%Z _ _ _).
  - reflexivity.
  - compute_done.
  - compute_done.
  - reflexivity.
  - reflexivity.
  - lia.
  - reflexivity.
Defined.

